(** * requests-forwarder: the interception shim of [requests_forwarder/core.py]

    A shallow embedding of the configuration store ([_state], [setup_proxy],
    [disable_proxy], the getters) and of the request rewriter
    ([_patched_request]), followed by the properties of the specification.

    Python objects that can be shared between the caller and the library
    (dicts, lists, sets) live in a heap and are named by their location, so
    that "clone", "snapshot copy" and "never mutated" are statements about
    the heap.  Functions of the Python standard library that the module
    imports ([urllib.parse.urlparse], [urllib.parse.parse_qs], [bytes.decode],
    [str] of a non-string) are parameters of the development. *)

From Stdlib Require Import String Ascii ZArith.
From stdpp Require Import gmap strings list fin_maps.

Local Open Scope string_scope.
Set Warnings "-register-all".

(** ** Python values and the heap *)

Abbreviation loc := positive.

(** Values passed around by the hook.  [VRef] names a mutable object of the
    heap; [VList] is a list held by value (a list no caller has a reference
    to, such as the value lists built by [parse_qs]); [VOpaque] stands for
    any other object (file handles, adapters, floats, ...), which the hook
    only forwards. *)
Inductive pyval : Type :=
  | VNone
  | VBool (b : bool)
  | VInt (z : Z)
  | VStr (s : string)
  | VBytes (b : list Byte.byte)
  | VTuple (vs : list pyval)
  | VList (vs : list pyval)
  | VRef (l : loc)
  | VOpaque (n : nat).

Inductive obj : Type :=
  | ODict (d : gmap string pyval)
  | OList (vs : list pyval)
  | OSet (s : gset string).

(** [requests.Session.request] is either the library's own function or the
    hook; [Native n] names any other callable found there before activation. *)
Inductive callable : Type :=
  | PatchedRequest
  | Native (n : nat).

Inductive exn : Type :=
  | ValueError
  | TypeError.

(** ** Constants *)

Definition DEFAULT_API_HOST : string := "api.telegram.org".
Definition DEFAULT_PROXY_BASE_URL : string := "https://requests-forwarder.ir".
Definition FORWARD_ENDPOINT : string := "/forward".

(** ** Internal state *)

(** The [_state] dict, one field per key. *)
Record State : Type := mkState {
  original_request : option callable;
  proxy_base_url : option string;
  proxy_token : option string;
  active : bool;
  intercept_all : bool;
  intercepted_hosts : loc;
  forwarder_host : option string
}.

(** [_state[key] = value], one function per key. *)
Definition set_original_request (v : option callable) (st : State) : State :=
  mkState v (proxy_base_url st) (proxy_token st) (active st) (intercept_all st)
          (intercepted_hosts st) (forwarder_host st).
Definition set_proxy_base_url (v : option string) (st : State) : State :=
  mkState (original_request st) v (proxy_token st) (active st) (intercept_all st)
          (intercepted_hosts st) (forwarder_host st).
Definition set_proxy_token (v : option string) (st : State) : State :=
  mkState (original_request st) (proxy_base_url st) v (active st)
          (intercept_all st) (intercepted_hosts st) (forwarder_host st).
Definition set_active (v : bool) (st : State) : State :=
  mkState (original_request st) (proxy_base_url st) (proxy_token st) v
          (intercept_all st) (intercepted_hosts st) (forwarder_host st).
Definition set_intercept_all (v : bool) (st : State) : State :=
  mkState (original_request st) (proxy_base_url st) (proxy_token st) (active st)
          v (intercepted_hosts st) (forwarder_host st).
Definition set_intercepted_hosts (v : loc) (st : State) : State :=
  mkState (original_request st) (proxy_base_url st) (proxy_token st) (active st)
          (intercept_all st) v (forwarder_host st).
Definition set_forwarder_host (v : option string) (st : State) : State :=
  mkState (original_request st) (proxy_base_url st) (proxy_token st) (active st)
          (intercept_all st) (intercepted_hosts st) v.

(** Everything the module can read or write: [_state], the attribute
    [requests.Session.request], and the heap of mutable objects. *)
Record World : Type := mkWorld {
  state : State;
  session_request : option callable;
  heap : gmap loc obj
}.

Definition set_state (f : State → State) (w : World) : World :=
  mkWorld (f (state w)) (session_request w) (heap w).

Definition set_session_request (c : option callable) (w : World) : World :=
  mkWorld (state w) c (heap w).

Definition set_heap (h : gmap loc obj) (w : World) : World :=
  mkWorld (state w) (session_request w) h.

(** The module as loaded: inactive, every field [None]/[False], and
    [intercepted_hosts] bound to a fresh empty set. *)
Definition initial_hosts_loc : loc := 1%positive.

Definition initial_state : State :=
  mkState None None None false false initial_hosts_loc None.

Definition initial_world (request : callable) : World :=
  mkWorld initial_state (Some request) {[ initial_hosts_loc := OSet ∅ ]}.

(** ** A state and exception monad *)

Inductive Result (A : Type) : Type :=
  | Ok (a : A)
  | Raised (e : exn).
Arguments Ok {A} a.
Arguments Raised {A} e.

Definition M (A : Type) : Type := World → Result A * World.

Definition ret {A} (a : A) : M A := λ w, (Ok a, w).
Definition raise {A} (e : exn) : M A := λ w, (Raised e, w).
Definition bind {A B} (m : M A) (k : A → M B) : M B :=
  λ w, match m w with
       | (Ok a, w') => k a w'
       | (Raised e, w') => (Raised e, w')
       end.
Definition get : M World := λ w, (Ok w, w).
Definition modify (f : World → World) : M unit := λ w, (Ok tt, f w).

Definition store (f : State → State) : M unit := modify (set_state f).

Declare Scope py_scope.
Delimit Scope py_scope with py.
Notation "x <- c1 ;; c2" := (bind c1 (λ x, c2))
  (at level 100, c1 at next level, right associativity) : py_scope.
Notation "c1 ;; c2" := (bind c1 (λ _, c2))
  (at level 100, right associativity) : py_scope.
Local Open Scope py_scope.

(** Object creation: the new object gets a location the heap does not use. *)
Definition alloc (o : obj) : M loc :=
  λ w, let l := fresh (dom (heap w)) in
       (Ok l, set_heap (<[l := o]> (heap w)) w).

(** [d[k] = v] on the dict at [l], and [xs.append(v)] on the list at [l]. *)
Definition setitem (l : loc) (k : string) (v : pyval) : M unit :=
  w <- get ;;
  match heap w !! l with
  | Some (ODict d) => modify (set_heap (<[l := ODict (<[k := v]> d)]> (heap w)))
  | _ => raise TypeError
  end.

Definition append (l : loc) (v : pyval) : M unit :=
  w <- get ;;
  match heap w !! l with
  | Some (OList vs) => modify (set_heap (<[l := OList (vs ++ [v])]> (heap w)))
  | _ => raise TypeError
  end.

(** ** Python built-ins used by the module *)

(** [s.rstrip("/")] *)
Fixpoint rstrip (c : ascii) (s : string) : string :=
  match s with
  | EmptyString => EmptyString
  | String a r =>
      match rstrip c r with
      | EmptyString => if Ascii.eqb a c then EmptyString else String a EmptyString
      | r' => String a r'
      end
  end.

(** The last character of a text, to say that [rstrip] leaves no slash. *)
Fixpoint last_char (s : string) : option ascii :=
  match s with
  | EmptyString => None
  | String a EmptyString => Some a
  | String _ r => last_char r
  end.

(** Truth value of an object, as [if x] and [not x] test it. *)
Definition truthy (h : gmap loc obj) (v : pyval) : bool :=
  match v with
  | VNone => false
  | VBool b => b
  | VInt z => negb (Z.eqb z 0)
  | VStr s => negb (String.eqb s "")
  | VBytes b => match b with [] => false | _ => true end
  | VTuple vs | VList vs => match vs with [] => false | _ => true end
  | VRef l =>
      match h !! l with
      | Some (ODict d) => negb (bool_decide (d = ∅))
      | Some (OList vs) => match vs with [] => false | _ => true end
      | Some (OSet s) => negb (bool_decide (s = ∅))
      | None => true
      end
  | VOpaque _ => true
  end.

Definition truthy_str (s : option string) : bool :=
  match s with
  | Some s => negb (String.eqb s "")
  | None => false
  end.

Definition truthy_list {A} (l : option (list A)) : bool :=
  match l with
  | Some (_ :: _) => true
  | _ => false
  end.

(** [f"{x}"] for a field of [_state] that holds a string or [None]. *)
Definition fmt (s : option string) : string := default "None" s.

Definition opt_str (s : option string) : pyval :=
  match s with
  | Some s => VStr s
  | None => VNone
  end.

(** [dict(x)]: a copy of a dict, or the dict built from a list or tuple of
    two-element tuples or lists whose first element is a [str].  Anything
    else is outside the model and is reported as [None], which the hook
    turns into an exception: other iterables of pairs (such as a list of
    two-character strings), mapping objects that are not dicts, keys that
    are not [str], and the values on which [dict] itself raises. *)
Definition as_item (v : pyval) : option (string * pyval) :=
  match v with
  | VTuple [VStr k; x] | VList [VStr k; x] => Some (k, x)
  | _ => None
  end.

Definition dict_of_items (vs : list pyval) : option (gmap string pyval) :=
  foldl (λ acc v, d ← acc; kv ← as_item v; Some (<[kv.1 := kv.2]> d))
        (Some ∅) vs.

Definition py_dict (h : gmap loc obj) (v : pyval) : option (gmap string pyval) :=
  match v with
  | VTuple vs | VList vs => dict_of_items vs
  | VRef l =>
      match h !! l with
      | Some (ODict d) => Some d
      | Some (OList vs) => dict_of_items vs
      | _ => None
      end
  | _ => None
  end.

(** [isinstance(x, dict)] and [isinstance(x, (list, tuple))], with the
    contents of the object. *)
Definition as_dict (h : gmap loc obj) (v : pyval) : option (gmap string pyval) :=
  match v with
  | VRef l => match h !! l with Some (ODict d) => Some d | _ => None end
  | _ => None
  end.

Definition as_sequence (h : gmap loc obj) (v : pyval) : option (list pyval) :=
  match v with
  | VTuple vs | VList vs => Some vs
  | VRef l => match h !! l with Some (OList vs) => Some vs | _ => None end
  | _ => None
  end.

(** ** Public API *)

(** The effective host set of [setup_proxy]: empty in intercept-all mode;
    otherwise [hosts] when given and non-empty, else the default host, with
    the legacy [extra_hosts] merged in. *)
Definition resolve_hosts (hosts : option (list string)) (intercept_all : bool)
    (extra_hosts : option (list string)) : gset string :=
  if negb intercept_all then
    let resolved_hosts : gset string :=
      if truthy_list hosts then list_to_set (default [] hosts)
      else {[ DEFAULT_API_HOST ]} in
    if truthy_list extra_hosts
    then resolved_hosts ∪ list_to_set (default [] extra_hosts)
    else resolved_hosts
  else ∅.

Definition is_active : M bool :=
  w <- get ;; ret (active (state w)).

Definition get_proxy_url : M string :=
  w <- get ;; ret (default "" (proxy_base_url (state w))).

(** [set(_state["intercepted_hosts"])]: a new set with the same members. *)
Definition get_intercepted_hosts : M loc :=
  w <- get ;;
  match heap w !! intercepted_hosts (state w) with
  | Some (OSet s) => alloc (OSet s)
  | _ => raise TypeError
  end.

Definition disable_proxy : M unit :=
  w <- get ;;
  if negb (active (state w)) then ret tt
  else
    modify (set_session_request (original_request (state w))) ;;
    store (set_active false) ;;
    store (set_original_request None).

(** The request handed to the original request function: the hook ends in a
    tail call, whose callee and arguments are its result here. *)
Record Call : Type := mkCall {
  callee : callable;
  call_self : pyval;
  call_method : pyval;
  call_url : pyval;
  call_kwargs : gmap string pyval
}.

(** [original_request(self, method, url, **kwargs)]; calling [None] raises. *)
Definition call (f : option callable) (self method url : pyval)
    (kwargs : gmap string pyval) : M Call :=
  match f with
  | Some f => ret (mkCall f self method url kwargs)
  | None => raise TypeError
  end.

(** [hostname in _state["intercepted_hosts"]] *)
Definition host_in (hostname : option string) (l : loc) : M bool :=
  w <- get ;;
  match heap w !! l with
  | Some (OSet s) =>
      ret (match hostname with
           | Some x => bool_decide (x ∈ s)
           | None => false
           end)
  | _ => raise TypeError
  end.

(** The decision of the hook: in intercept-all mode everything but the
    forwarder itself (loop guard), otherwise the configured hosts only. *)
Definition should_intercept (hostname : option string) : M bool :=
  w <- get ;;
  if intercept_all (state w)
  then ret (negb (bool_decide (hostname = forwarder_host (state w))))
  else host_in hostname (intercepted_hosts (state w)).

(** [dict(raw_headers) if raw_headers else {}], as a value. *)
Definition headers_of (h : gmap loc obj) (raw_headers : pyval)
    : option (gmap string pyval) :=
  if truthy h raw_headers then py_dict h raw_headers else Some ∅.

(** The headers block of the hook: a new dict with the caller's headers and
    both authentication headers. *)
Definition prepare_headers (raw_headers : pyval) (proxy_token : option string)
    : M loc :=
  w <- get ;;
  headers <-
    match headers_of (heap w) raw_headers with
    | Some d => alloc (ODict d)
    | None => raise TypeError
    end ;;
  setitem headers "Authorization" (VStr ("Bearer " ++ fmt proxy_token)) ;;
  setitem headers "X-Api-Token" (opt_str proxy_token) ;;
  ret headers.

(** [{k: v[0] if len(v) == 1 else v for k, v in decoded.items()}] *)
Definition unwrap_single (v : list string) : pyval :=
  match v with
  | [x] => VStr x
  | _ => VList (VStr <$> v)
  end.

(** ** What the rewritten request is made of *)

(** [f"{_state['proxy_base_url']}{FORWARD_ENDPOINT}"] *)
Definition forward_url (w : World) : string :=
  fmt (proxy_base_url (state w)) ++ FORWARD_ENDPOINT.

(** The caller's headers [d] with the two authentication headers set. *)
Definition auth_headers (proxy_token : option string) (d : gmap string pyval)
    : gmap string pyval :=
  <["X-Api-Token" := opt_str proxy_token]>
    (<["Authorization" := VStr ("Bearer " ++ fmt proxy_token)]> d).

(** The caller's headers are the mapping [d]: the [headers] argument is a
    dict holding [d], or it is absent or [None] and [d] is empty. *)
Definition caller_headers (h : gmap loc obj) (raw : option pyval)
    (d : gmap string pyval) : Prop :=
  ((raw = None ∨ raw = Some VNone) ∧ d = ∅)
  ∨ ∃ l, raw = Some (VRef l) ∧ h !! l = Some (ODict d).

(** The host set [_state["intercepted_hosts"]] refers to. *)
Definition configured_hosts (w : World) : option (gset string) :=
  match heap w !! intercepted_hosts (state w) with
  | Some (OSet s) => Some s
  | _ => None
  end.

Section Forwarder.

(** [urllib.parse.urlparse]; [None] is a raised exception. *)
Variable ParseResult : Type.
Variable urlparse : string → option ParseResult.
Variable hostname : ParseResult → option string.
(** [str(x)] of a value that is not a [str]. *)
Variable repr : pyval → string.
(** [b.decode("utf-8", errors="replace")] and [urllib.parse.parse_qs]. *)
Variable decode : list Byte.byte → string.
Variable parse_qs : string → gmap string (list string).

Definition py_str (v : pyval) : string :=
  match v with
  | VStr s => s
  | _ => repr v
  end.

(** [urlparse(url).hostname], with [None] when [urlparse] raises. *)
Definition try_hostname (url : string) : option string :=
  match urlparse url with
  | Some parsed => hostname parsed
  | None => None
  end.

Definition setup_proxy (proxy_token : option string) (proxy_base_url : string)
    (hosts : option (list string)) (intercept_all : bool)
    (extra_hosts : option (list string)) : M unit :=
  if negb (truthy_str proxy_token) then raise ValueError
  else
    let base_url := rstrip "/" proxy_base_url in
    resolved_hosts <- alloc (OSet (resolve_hosts hosts intercept_all extra_hosts)) ;;
    let forwarder_host := try_hostname base_url in
    w <- get ;;
    if active (state w) then
      store (set_proxy_base_url (Some base_url)) ;;
      store (set_proxy_token proxy_token) ;;
      store (set_intercept_all intercept_all) ;;
      store (set_intercepted_hosts resolved_hosts) ;;
      store (set_forwarder_host forwarder_host)
    else
      store (set_proxy_base_url (Some base_url)) ;;
      store (set_proxy_token proxy_token) ;;
      store (set_intercept_all intercept_all) ;;
      store (set_intercepted_hosts resolved_hosts) ;;
      store (set_forwarder_host forwarder_host) ;;
      w <- get ;;
      store (set_original_request (session_request w)) ;;
      modify (set_session_request (Some PatchedRequest)) ;;
      store (set_active true).

(** The query-parameter block of the hook: a new object that carries the
    original URL under [url]. *)
Definition prepare_params (raw_params url : pyval) : M loc :=
  w <- get ;;
  match raw_params with
  | VNone => alloc (ODict {[ "url" := url ]})
  | _ =>
    match as_dict (heap w) raw_params with
    | Some d =>
        params <- alloc (ODict d) ;;
        setitem params "url" url ;;
        ret params
    | None =>
      match as_sequence (heap w) raw_params with
      | Some vs =>
          params <- alloc (OList vs) ;;
          append params (VTuple [VStr "url"; url]) ;;
          ret params
      | None =>
        match raw_params with
        | VBytes b =>
            let decoded := parse_qs (decode b) in
            params <- alloc (ODict (unwrap_single <$> decoded)) ;;
            setitem params "url" url ;;
            ret params
        | _ => alloc (ODict {[ "url" := url ]})
        end
      end
    end
  end.

Definition _patched_request (self method url : pyval)
    (kwargs : gmap string pyval) : M Call :=
  w <- get ;;
  let original_request := original_request (state w) in
  match urlparse (py_str url) with
  | None => call original_request self method url kwargs
  | Some parsed =>
    let hostname := hostname parsed in
    should_intercept <- should_intercept hostname ;;
    if negb should_intercept
    then call original_request self method url kwargs
    else
      let forward_url := fmt (proxy_base_url (state w)) ++ FORWARD_ENDPOINT in
      let proxy_token := proxy_token (state w) in
      let raw_headers := default VNone (kwargs !! "headers") in
      headers <- prepare_headers raw_headers proxy_token ;;
      let kwargs := <["headers" := VRef headers]> kwargs in
      let raw_params := default VNone (kwargs !! "params") in
      params <- prepare_params raw_params url ;;
      let kwargs := <["params" := VRef params]> kwargs in
      call original_request self method (VStr forward_url) kwargs
  end.

(** The object [prepare_params] builds, read off a heap [h]. *)
Definition merged_params (h : gmap loc obj) (raw_params url : pyval) : obj :=
  match raw_params with
  | VNone => ODict {[ "url" := url ]}
  | _ =>
    match as_dict h raw_params with
    | Some d => ODict (<["url" := url]> d)
    | None =>
      match as_sequence h raw_params with
      | Some vs => OList (vs ++ [VTuple [VStr "url"; url]])
      | None =>
        match raw_params with
        | VBytes b => ODict (<["url" := url]> (unwrap_single <$> parse_qs (decode b)))
        | _ => ODict {[ "url" := url ]}
        end
      end
    end
  end.

(** ** The two outcomes of the hook *)

(** The request went to the original request function with the caller's
    arguments, and nothing was written. *)
Definition passed_through (self method url : pyval)
    (kwargs : gmap string pyval) (w : World) : Prop :=
  ∃ f, original_request (state w) = Some f ∧
       _patched_request self method url kwargs w
       = (Ok (mkCall f self method url kwargs), w).

(** The request was redirected: it did not pass through; it is sent, on
    the original request function and with the caller's method, to the
    forward URL; and the hook raises only when [dict(headers)] does. *)
Definition intercepted (self method url : pyval)
    (kwargs : gmap string pyval) (w : World) : Prop :=
  ¬ passed_through self method url kwargs w ∧
  (∀ c w', _patched_request self method url kwargs w = (Ok c, w') →
     Some (callee c) = original_request (state w) ∧ call_self c = self ∧
     call_method c = method ∧ call_url c = VStr (forward_url w)) ∧
  (is_Some (headers_of (heap w) (default VNone (kwargs !! "headers"))) →
     ∃ c w', _patched_request self method url kwargs w = (Ok c, w')).

(** The five ways through the hook. *)
Inductive hook_path (self method url : pyval) (kwargs : gmap string pyval)
    (w : World) : Prop :=
  | path_unparsed :
      urlparse (py_str url) = None →
      _patched_request self method url kwargs w
      = call (original_request (state w)) self method url kwargs w →
      hook_path self method url kwargs w
  | path_pass parsed :
      urlparse (py_str url) = Some parsed →
      should_intercept (hostname parsed) w = (Ok false, w) →
      _patched_request self method url kwargs w
      = call (original_request (state w)) self method url kwargs w →
      hook_path self method url kwargs w
  | path_decision_raises parsed e :
      urlparse (py_str url) = Some parsed →
      should_intercept (hostname parsed) w = (Raised e, w) →
      _patched_request self method url kwargs w = (Raised e, w) →
      hook_path self method url kwargs w
  | path_headers_raise parsed :
      urlparse (py_str url) = Some parsed →
      should_intercept (hostname parsed) w = (Ok true, w) →
      headers_of (heap w) (default VNone (kwargs !! "headers")) = None →
      _patched_request self method url kwargs w = (Raised TypeError, w) →
      hook_path self method url kwargs w
  | path_rewrite parsed d :
      urlparse (py_str url) = Some parsed →
      should_intercept (hostname parsed) w = (Ok true, w) →
      headers_of (heap w) (default VNone (kwargs !! "headers")) = Some d →
      (let lh := fresh (dom (heap w)) in
       let h1 := <[lh := ODict (auth_headers (proxy_token (state w)) d)]> (heap w) in
       let lp := fresh (dom h1) in
       _patched_request self method url kwargs w =
         call (original_request (state w)) self method (VStr (forward_url w))
              (<["params" := VRef lp]> (<["headers" := VRef lh]> kwargs))
              (set_heap (<[lp := merged_params h1
                                  (default VNone (kwargs !! "params")) url]> h1) w)) →
      hook_path self method url kwargs w.

(** ** The query parameters, in the words of the specification *)

Inductive params_shape : Type :=
  | Absent
  | Mapping (d : gmap string pyval)
  | Sequence (vs : list pyval).

(** The shape of the [params] argument found in [kwargs]: absent or
    [None]; a dict holding [d]; a tuple or a list with the elements [vs]. *)
Definition has_shape (h : gmap loc obj) (raw : option pyval)
    (sh : params_shape) : Prop :=
  match sh with
  | Absent => raw = None ∨ raw = Some VNone
  | Mapping d => ∃ l, raw = Some (VRef l) ∧ h !! l = Some (ODict d)
  | Sequence vs =>
      raw = Some (VTuple vs) ∨ raw = Some (VList vs)
      ∨ ∃ l, raw = Some (VRef l) ∧ h !! l = Some (OList vs)
  end.

(** A mapping: clone, then add or overwrite [url].  A sequence: clone,
    then append [url].  Absent: a mapping containing only [url]. *)
Definition spec_params (sh : params_shape) (url : pyval) : obj :=
  match sh with
  | Absent => ODict {[ "url" := url ]}
  | Mapping d => ODict (<["url" := url]> d)
  | Sequence vs => OList (vs ++ [VTuple [VStr "url"; url]])
  end.

(** The parameter [k] with value [v] is among the caller's parameters: an
    entry of the mapping, a pair of the sequence. *)
Definition supplied (sh : params_shape) (k : string) (v : pyval) : Prop :=
  match sh with
  | Absent => False
  | Mapping d => d !! k = Some v
  | Sequence vs => VTuple [VStr k; v] ∈ vs
  end.

(** The parameter [k] with value [v] is among those of the object [o]. *)
Definition carries (o : obj) (k : string) (v : pyval) : Prop :=
  match o with
  | ODict d => d !! k = Some v
  | OList vs => VTuple [VStr k; v] ∈ vs
  | OSet _ => False
  end.

End Forwarder.

(** ** Operations on the module, to state what every operation preserves *)

Inductive operation : Type :=
  | Activate (proxy_token : option string) (proxy_base_url : string)
             (hosts : option (list string)) (intercept_all : bool)
             (extra_hosts : option (list string))
  | Deactivate
  | IsActive
  | CurrentBaseURL
  | CurrentInterceptedHosts
  | Request (self method url : pyval) (kwargs : gmap string pyval).

Section Exec.

Variable ParseResult : Type.
Variable urlparse : string → option ParseResult.
Variable hostname : ParseResult → option string.
Variable repr : pyval → string.
Variable decode : list Byte.byte → string.
Variable parse_qs : string → gmap string (list string).

(** The world an operation leaves behind, whether it returns or raises. *)
Definition exec (op : operation) (w : World) : World :=
  match op with
  | Activate tok base hosts ia extra =>
      (setup_proxy ParseResult urlparse hostname tok base hosts ia extra w).2
  | Deactivate => (disable_proxy w).2
  | IsActive => (is_active w).2
  | CurrentBaseURL => (get_proxy_url w).2
  | CurrentInterceptedHosts => (get_intercepted_hosts w).2
  | Request self method url kwargs =>
      (_patched_request ParseResult urlparse hostname repr decode parse_qs
         self method url kwargs w).2
  end.

End Exec.

(** [authToken] is never empty while [active] is true. *)
Definition token_invariant (w : World) : Prop :=
  active (state w) = true → ∃ t, proxy_token (state w) = Some t ∧ t ≠ "".

(** The hook is installed exactly while the proxy is active: when active,
    [requests.Session.request] is the hook and [_state] holds the function it
    replaced; when inactive, nothing is held and a function other than the
    hook is in place. *)
Definition installed (w : World) : Prop :=
  if active (state w)
  then session_request w = Some PatchedRequest
       ∧ ∃ n, original_request (state w) = Some (Native n)
  else original_request (state w) = None
       ∧ ∃ n, session_request w = Some (Native n).

(** A [params] argument that is none of [None], a dict, a list, a tuple or
    bytes: a string, a number, any other object, or a set. *)
Definition other_shape (h : gmap loc obj) (raw : pyval) : Prop :=
  match raw with
  | VStr _ | VInt _ | VBool _ | VOpaque _ => True
  | VRef l => ∃ s, h !! l = Some (OSet s)
  | _ => False
  end.

(** In intercept-all mode the configured host set is empty. *)
Definition intercept_all_empty (w : World) : Prop :=
  intercept_all (state w) = true → configured_hosts w = Some ∅.

(** ** A reference instance of the library parameters

    The theorems below hold for every [urlparse], [parse_qs], [decode] and
    [repr].  To run the hook on concrete requests, [UrlLib] gives an
    executable instance that follows CPython's [urllib.parse] on printable
    ASCII input: the netloc is what follows [scheme://] up to the first of
    [/ ? #], leading spaces and control characters being dropped and tabs
    and line breaks removed first; unbalanced square brackets raise; the
    hostname drops the userinfo and the port and is lowercased up to a
    [%].  Not covered: the check that a bracketed host is an IP address
    (CPython raises on [[abc]]), non-ASCII hosts, and, in [parse_qs],
    percent-escapes and [+]. *)
Module UrlLib.

Definition code (c : ascii) : nat := nat_of_ascii c.
Definition between (lo hi : nat) (c : ascii) : bool :=
  (lo <=? code c)%nat && (code c <=? hi)%nat.
Definition is_upper := between 65 90.
Definition is_alpha (c : ascii) : bool := is_upper c || between 97 122 c.
Definition is_scheme_char (c : ascii) : bool :=
  is_alpha c || between 48 57 c
  || Ascii.eqb c "+" || Ascii.eqb c "-" || Ascii.eqb c ".".
Definition lower (c : ascii) : ascii :=
  if is_upper c then ascii_of_nat (code c + 32) else c.
Definition is_char (a c : ascii) : bool := Ascii.eqb a c.

(** [s.partition(c)]: the text before the first [c], and the text after it
    when there is one. *)
Fixpoint partition (c : ascii) (s : list ascii)
    : list ascii * option (list ascii) :=
  match s with
  | [] => ([], None)
  | a :: r =>
      if Ascii.eqb a c then ([], Some r)
      else let '(pre, post) := partition c r in (a :: pre, post)
  end.

(** The text after the last [c], the whole text when there is none. *)
Fixpoint after_last (c : ascii) (s : list ascii) : list ascii :=
  match s with
  | [] => []
  | a :: r =>
      if existsb (is_char c) r then after_last c r
      else if Ascii.eqb a c then r else a :: r
  end.

Fixpoint take_netloc (s : list ascii) : list ascii :=
  match s with
  | [] => []
  | a :: r =>
      if Ascii.eqb a "/" || Ascii.eqb a "?" || Ascii.eqb a "#" then []
      else a :: take_netloc r
  end.

Definition strip_scheme (u : list ascii) : list ascii :=
  match partition ":" u with
  | (a :: pre, Some rest) =>
      if is_alpha a && forallb is_scheme_char (a :: pre) then rest else u
  | _ => u
  end.

Definition netloc (u : list ascii) : list ascii :=
  match strip_scheme u with
  | "/"%char :: "/"%char :: r => take_netloc r
  | _ => []
  end.

Definition is_line_break (c : ascii) : bool :=
  (code c =? 9)%nat || (code c =? 10)%nat || (code c =? 13)%nat.

Fixpoint lstrip (s : list ascii) : list ascii :=
  match s with
  | a :: r => if (code a <=? 32)%nat then lstrip r else s
  | [] => []
  end.

(** The parse result is reduced to its netloc. *)
Definition urlparse (url : string) : option (list ascii) :=
  let cleaned :=
    List.filter (λ c, negb (is_line_break c))
                (lstrip (list_ascii_of_string url)) in
  let n := netloc cleaned in
  if xorb (existsb (is_char "[") n) (existsb (is_char "]") n) then None
  else Some n.

Definition hostname (n : list ascii) : option string :=
  let hostinfo := after_last "@" n in
  let host :=
    match partition "[" hostinfo with
    | (_, Some bracketed) => fst (partition "]" bracketed)
    | (_, None) => fst (partition ":" hostinfo)
    end in
  match host with
  | [] => None
  | _ =>
      let '(name, zone) := partition "%" host in
      Some (string_of_list_ascii
              ((lower <$> name) ++
               match zone with Some z => "%"%char :: z | None => [] end))
  end.

(** [decode] on ASCII bytes. *)
Definition decode (b : list Byte.byte) : string :=
  string_of_list_ascii (ascii_of_byte <$> b).

Fixpoint split (c : ascii) (s : list ascii) : list (list ascii) :=
  match s with
  | [] => [[]]
  | a :: r =>
      if Ascii.eqb a c then [] :: split c r
      else match split c r with
           | w :: ws => (a :: w) :: ws
           | [] => [[a]]
           end
  end.

(** [parse_qs] with its defaults: fields without [=] and fields with a
    blank value are skipped, values of a repeated name are collected. *)
Definition parse_qs (qs : string) : gmap string (list string) :=
  foldl (λ (acc : gmap string (list string)) field,
           match partition "=" field with
           | (name, Some (v :: vs)) =>
               let k := string_of_list_ascii name in
               <[k := (default [] (acc !! k) ++ [string_of_list_ascii (v :: vs)])%list]> acc
           | _ => acc
           end)
        ∅ (split "&" (list_ascii_of_string qs)).

(** [str(b)] of a bytes object is its literal, which has no netloc. *)
Definition repr (v : pyval) : string :=
  match v with
  | VBytes b => "b'" ++ decode b ++ "'"
  | _ => "<object>"
  end.

End UrlLib.


(** The hook and the activation with the reference instance plugged in. *)
Definition patched_request := _patched_request (list ascii)
  UrlLib.urlparse UrlLib.hostname UrlLib.repr UrlLib.decode UrlLib.parse_qs.
Definition activate := setup_proxy (list ascii) UrlLib.urlparse UrlLib.hostname.

Definition deactivate := disable_proxy.

(** Concrete worlds and requests, to run the operations on.  [w_hosts] is
    the module after [setup_proxy("tok", "https://fw.test/",
    hosts=["httpbin.org"])], with the two dicts a caller then created;
    [w_all] is the module after [setup_proxy("tok", "https://fw.test",
    intercept_all=True)]. *)
Definition caller_headers_loc : loc := 10%positive.
Definition caller_params_loc : loc := 11%positive.

Definition w_hosts : World :=
  let w := (activate (Some "tok") "https://fw.test/" (Some ["httpbin.org"])
              false None (initial_world (Native 0))).2 in
  set_heap (<[caller_headers_loc := ODict {[ "X-Custom" := VStr "value123" ]}]>
              (<[caller_params_loc := ODict {[ "foo" := VStr "bar" ]}]> (heap w))) w.

Definition w_all : World :=
  (activate (Some "tok") "https://fw.test" None true None
     (initial_world (Native 0))).2.

Definition session : pyval := VOpaque 0.

Definition kwargs_demo : gmap string pyval :=
  {[ "headers" := VRef caller_headers_loc;
     "params" := VRef caller_params_loc;
     "timeout" := VInt 20 ]}.

(** The parameters a raw query string spells out, read off its text: [&]
    separates the fields, the first [=] of a field separates the name from
    the value, a field without [=] has the empty value, and an empty field
    is no parameter.  No escape is decoded. *)
Definition query_fields (q : string) : list (string * string) :=
  omap (λ field,
          match field with
          | [] => None
          | _ =>
              let '(name, value) := UrlLib.partition "=" field in
              Some (string_of_list_ascii name,
                    string_of_list_ascii (default [] value))
          end)
       (UrlLib.split "&" (list_ascii_of_string q)).

(** A request with the query string [a=&b=2] given as bytes, and one with
    its parameters given as a tuple of pairs. *)
Definition kwargs_raw : gmap string pyval :=
  {[ "params" := VBytes (list_byte_of_string "a=&b=2") ]}.

Definition kwargs_seq : gmap string pyval :=
  {[ "params" := VTuple [VTuple [VStr "foo"; VStr "bar"];
                         VTuple [VStr "foo"; VStr "baz"]] ]}.

(** A request with a query string given as [str] and a body. *)
Definition kwargs_str : gmap string pyval :=
  {[ "params" := VStr "a=1&b=2"; "data" := VBytes [] ; "timeout" := VInt 20 ]}.

(** The module after [setup_proxy("tok", "fw.test", intercept_all=True)]:
    the base URL has no scheme, so no forwarder hostname is cached. *)
Definition w_schemeless : World :=
  (activate (Some "tok") "fw.test" None true None (initial_world (Native 0))).2.

Definition is_intercepted := intercepted (list ascii) UrlLib.urlparse
  UrlLib.hostname UrlLib.repr UrlLib.decode UrlLib.parse_qs.
Definition is_passed_through := passed_through (list ascii) UrlLib.urlparse
  UrlLib.hostname UrlLib.repr UrlLib.decode UrlLib.parse_qs.
Definition step := exec (list ascii) UrlLib.urlparse UrlLib.hostname
  UrlLib.repr UrlLib.decode UrlLib.parse_qs.

(** The call a run of the hook returned ([session.request] of nothing when
    it raised). *)
Definition the_call (r : Result Call * World) : Call :=
  match r.1 with
  | Ok c => c
  | Raised _ => mkCall PatchedRequest VNone VNone VNone ∅
  end.

(** * Properties *)

(** ** The heap *)

Ltac run :=
  repeat (progress (unfold bind, ret, raise, get, modify, store, alloc; simpl)).

Lemma fresh_unused (h : gmap loc obj) : h !! fresh (dom h) = None.
Proof. apply not_elem_of_dom, is_fresh. Qed.

Lemma fresh_ne (h : gmap loc obj) (l : loc) (o : obj) :
  h !! l = Some o → fresh (dom h) ≠ l.
Proof. intros Hl Heq. rewrite <- Heq, fresh_unused in Hl. discriminate. Qed.

(** Allocation leaves every object of the heap where and as it was. *)
Lemma alloc_frame (h : gmap loc obj) (o : obj) (l : loc) :
  is_Some (h !! l) → <[fresh (dom h) := o]> h !! l = h !! l.
Proof. intros [o' Hl]. apply lookup_insert_ne. by eapply fresh_ne. Qed.

Lemma alloc_run (o : obj) (w : World) :
  alloc o w = (Ok (fresh (dom (heap w))),
               set_heap (<[fresh (dom (heap w)) := o]> (heap w)) w).
Proof. reflexivity. Qed.

(** ** Normalisation of the base URL *)

(** The normalised text is the input without a (possibly empty) run of
    trailing [c]. *)
Lemma rstrip_spec (c : ascii) (s : string) :
  ∃ n, s = rstrip c s ++ string_of_list_ascii (replicate n c).
Proof.
  induction s as [|a r [n IH]]; simpl.
  - by exists 0.
  - destruct (rstrip c r) as [|b r'] eqn:Hr.
    + destruct (Ascii.eqb_spec a c) as [->|Hne]; simpl in *.
      * exists (S n). simpl. by rewrite IH.
      * exists n. by rewrite IH at 1.
    + exists n. simpl. by rewrite IH at 1.
Qed.

Lemma rstrip_no_trailing (c : ascii) (s : string) :
  last_char (rstrip c s) ≠ Some c.
Proof.
  induction s as [|a r IH]; simpl; [done|].
  destruct (rstrip c r) as [|b r'] eqn:Hr.
  - destruct (Ascii.eqb_spec a c); simpl; congruence.
  - simpl in *. done.
Qed.

Section Paths.

Variable ParseResult : Type.
Variable urlparse : string → option ParseResult.
Variable hostname : ParseResult → option string.
Variable repr : pyval → string.
Variable decode : list Byte.byte → string.
Variable parse_qs : string → gmap string (list string).

Abbreviation setup := (setup_proxy ParseResult urlparse hostname).
Abbreviation hook :=
  (_patched_request ParseResult urlparse hostname repr decode parse_qs).
Abbreviation cached_host base :=
  (try_hostname ParseResult urlparse hostname (rstrip "/" base)).

(** ** [setup_proxy] and [disable_proxy], path by path *)

Lemma truthy_str_true (tok : option string) :
  truthy_str tok = true ↔ ∃ t, tok = Some t ∧ t ≠ "".
Proof.
  destruct tok as [t|]; simpl.
  - rewrite negb_true_iff. destruct (String.eqb_spec t ""); split;
      [intros; simplify_eq | intros (? & ? & ?); simplify_eq
      |intros; eexists; eauto | done].
  - split; [done | by intros (? & ? & ?)].
Qed.

Lemma truthy_str_false (tok : option string) :
  truthy_str tok = false ↔ tok = None ∨ tok = Some "".
Proof.
  destruct tok as [t|]; simpl.
  - rewrite negb_false_iff. destruct (String.eqb_spec t ""); split;
      [intros; subst; by right | done | done | intros [|]; simplify_eq].
  - split; [by left | done].
Qed.

Lemma setup_proxy_falsy tok base hosts ia extra w :
  truthy_str tok = false →
  setup tok base hosts ia extra w = (Raised ValueError, w).
Proof. intros H. unfold setup_proxy. by rewrite H. Qed.

Lemma setup_proxy_active tok base hosts ia extra w :
  truthy_str tok = true → active (state w) = true →
  setup tok base hosts ia extra w =
    (Ok tt,
     mkWorld (mkState (original_request (state w)) (Some (rstrip "/" base))
                tok true ia (fresh (dom (heap w))) (cached_host base))
             (session_request w)
             (<[fresh (dom (heap w)) := OSet (resolve_hosts hosts ia extra)]>
                (heap w))).
Proof.
  intros Ht Ha. destruct w as [[] ? ?]; simpl in Ha; subst.
  unfold setup_proxy. rewrite Ht. by run.
Qed.

Lemma setup_proxy_inactive tok base hosts ia extra w :
  truthy_str tok = true → active (state w) = false →
  setup tok base hosts ia extra w =
    (Ok tt,
     mkWorld (mkState (session_request w) (Some (rstrip "/" base))
                tok true ia (fresh (dom (heap w))) (cached_host base))
             (Some PatchedRequest)
             (<[fresh (dom (heap w)) := OSet (resolve_hosts hosts ia extra)]>
                (heap w))).
Proof.
  intros Ht Ha. destruct w as [[] ? ?]; simpl in Ha; subst.
  unfold setup_proxy. rewrite Ht. by run.
Qed.

Lemma disable_proxy_inactive w :
  active (state w) = false → disable_proxy w = (Ok tt, w).
Proof.
  intros Ha. destruct w as [[] ? ?]; simpl in Ha; subst.
  unfold disable_proxy. by run.
Qed.

Lemma disable_proxy_active w :
  active (state w) = true →
  disable_proxy w =
    (Ok tt,
     mkWorld (mkState None (proxy_base_url (state w)) (proxy_token (state w))
                false (intercept_all (state w)) (intercepted_hosts (state w))
                (forwarder_host (state w)))
             (original_request (state w)) (heap w)).
Proof.
  intros Ha. destruct w as [[] ? ?]; simpl in Ha; subst.
  unfold disable_proxy. by run.
Qed.

(** ** The hook, path by path *)

Lemma setitem_run l k v d w :
  heap w !! l = Some (ODict d) →
  setitem l k v w = (Ok tt, set_heap (<[l := ODict (<[k := v]> d)]> (heap w)) w).
Proof. intros H. unfold setitem. run. by rewrite H. Qed.

Lemma append_run l v vs w :
  heap w !! l = Some (OList vs) →
  append l v w = (Ok tt, set_heap (<[l := OList (vs ++ [v])]> (heap w)) w).
Proof. intros H. unfold append. run. by rewrite H. Qed.

(** Creating a dict and setting a key of it, seen as one allocation. *)
Lemma alloc_setitem d k v w :
  (l <- alloc (ODict d) ;; setitem l k v ;; ret l) w =
    (Ok (fresh (dom (heap w))),
     set_heap (<[fresh (dom (heap w)) := ODict (<[k := v]> d)]> (heap w)) w).
Proof.
  unfold bind at 1. rewrite alloc_run. unfold bind at 1.
  erewrite setitem_run by (simpl; apply lookup_insert_eq).
  unfold ret, set_heap. simpl. by rewrite insert_insert_eq.
Qed.

Lemma alloc_append vs v w :
  (l <- alloc (OList vs) ;; append l v ;; ret l) w =
    (Ok (fresh (dom (heap w))),
     set_heap (<[fresh (dom (heap w)) := OList (vs ++ [v])]> (heap w)) w).
Proof.
  unfold bind at 1. rewrite alloc_run. unfold bind at 1.
  erewrite append_run by (simpl; apply lookup_insert_eq).
  unfold ret, set_heap. simpl. by rewrite insert_insert_eq.
Qed.

Lemma prepare_headers_run raw tok d w :
  headers_of (heap w) raw = Some d →
  prepare_headers raw tok w =
    (Ok (fresh (dom (heap w))),
     set_heap (<[fresh (dom (heap w)) := ODict (auth_headers tok d)]> (heap w)) w).
Proof.
  intros Hd. unfold prepare_headers. unfold bind at 1, get at 1. rewrite Hd.
  unfold bind at 1. rewrite alloc_run. unfold bind at 1.
  erewrite setitem_run by (simpl; apply lookup_insert_eq).
  unfold bind at 1.
  erewrite setitem_run by (simpl; apply lookup_insert_eq).
  unfold ret, set_heap, auth_headers. simpl. by rewrite !insert_insert_eq.
Qed.

Lemma prepare_headers_unsupported raw tok w :
  headers_of (heap w) raw = None →
  prepare_headers raw tok w = (Raised TypeError, w).
Proof.
  intros Hd. unfold prepare_headers. unfold bind at 1, get at 1. by rewrite Hd.
Qed.

Lemma prepare_params_run raw url w :
  prepare_params decode parse_qs raw url w =
    (Ok (fresh (dom (heap w))),
     set_heap (<[fresh (dom (heap w))
                 := merged_params decode parse_qs (heap w) raw url]> (heap w)) w).
Proof.
  unfold prepare_params, merged_params. unfold bind at 1, get at 1.
  destruct raw; try reflexivity;
    repeat first
      [ apply alloc_setitem | apply alloc_append | reflexivity
      | match goal with |- context [match ?x with _ => _ end] => destruct x end ].
Qed.

Lemma should_intercept_all host w :
  intercept_all (state w) = true →
  should_intercept host w =
    (Ok (negb (bool_decide (host = forwarder_host (state w)))), w).
Proof. intros H. unfold should_intercept. run. by rewrite H. Qed.

Lemma should_intercept_hosts host w s :
  intercept_all (state w) = false → configured_hosts w = Some s →
  should_intercept host w =
    (Ok (match host with Some x => bool_decide (x ∈ s) | None => false end), w).
Proof.
  intros H Hs. unfold should_intercept, host_in, configured_hosts in *. run.
  rewrite H. run. by repeat case_match; simplify_eq.
Qed.

Lemma hook_unparsed self method url kwargs w :
  urlparse (py_str repr url) = None →
  hook self method url kwargs w
  = call (original_request (state w)) self method url kwargs w.
Proof. intros H. unfold _patched_request. run. by rewrite H. Qed.

Lemma hook_pass self method url kwargs w parsed :
  urlparse (py_str repr url) = Some parsed →
  should_intercept (hostname parsed) w = (Ok false, w) →
  hook self method url kwargs w
  = call (original_request (state w)) self method url kwargs w.
Proof.
  intros H Hd. unfold _patched_request. unfold bind at 1, get at 1.
  rewrite H. unfold bind at 1. by rewrite Hd.
Qed.

Lemma call_world f self method url kwargs w :
  (call f self method url kwargs w).2 = w.
Proof. by destruct f. Qed.

Lemma should_intercept_world host w :
  (should_intercept host w).2 = w.
Proof.
  unfold should_intercept, host_in. run.
  by repeat case_match.
Qed.

Lemma hook_rewrite self method url kwargs w parsed d :
  urlparse (py_str repr url) = Some parsed →
  should_intercept (hostname parsed) w = (Ok true, w) →
  headers_of (heap w) (default VNone (kwargs !! "headers")) = Some d →
  let lh := fresh (dom (heap w)) in
  let h1 := <[lh := ODict (auth_headers (proxy_token (state w)) d)]> (heap w) in
  let lp := fresh (dom h1) in
  hook self method url kwargs w =
    call (original_request (state w)) self method (VStr (forward_url w))
         (<["params" := VRef lp]> (<["headers" := VRef lh]> kwargs))
         (set_heap (<[lp := merged_params decode parse_qs h1
                             (default VNone (kwargs !! "params")) url]> h1) w).
Proof.
  intros H Hd Hh lh h1 lp. unfold _patched_request.
  unfold bind at 1, get at 1. rewrite H. unfold bind at 1. rewrite Hd. simpl.
  unfold bind at 1. erewrite prepare_headers_run by done.
  unfold bind at 1. rewrite prepare_params_run. simpl.
  rewrite lookup_insert_ne by done. reflexivity.
Qed.

Lemma hook_decision_raises self method url kwargs w parsed e :
  urlparse (py_str repr url) = Some parsed →
  should_intercept (hostname parsed) w = (Raised e, w) →
  hook self method url kwargs w = (Raised e, w).
Proof.
  intros H Hd. unfold _patched_request.
  unfold bind at 1, get at 1. rewrite H. unfold bind at 1. by rewrite Hd.
Qed.

Lemma hook_rewrite_unsupported self method url kwargs w parsed :
  urlparse (py_str repr url) = Some parsed →
  should_intercept (hostname parsed) w = (Ok true, w) →
  headers_of (heap w) (default VNone (kwargs !! "headers")) = None →
  hook self method url kwargs w = (Raised TypeError, w).
Proof.
  intros H Hd Hh. unfold _patched_request.
  unfold bind at 1, get at 1. rewrite H. unfold bind at 1. rewrite Hd. simpl.
  unfold bind at 1. by rewrite prepare_headers_unsupported.
Qed.

End Paths.

Section Claims.

Variable ParseResult : Type.
Variable urlparse : string → option ParseResult.
Variable hostname : ParseResult → option string.
Variable repr : pyval → string.
Variable decode : list Byte.byte → string.
Variable parse_qs : string → gmap string (list string).

Abbreviation setup_proxy := (setup_proxy ParseResult urlparse hostname).
Abbreviation _patched_request :=
  (_patched_request ParseResult urlparse hostname repr decode parse_qs).
Abbreviation passed_through :=
  (passed_through ParseResult urlparse hostname repr decode parse_qs).
Abbreviation intercepted :=
  (intercepted ParseResult urlparse hostname repr decode parse_qs).
Abbreviation hook_path :=
  (hook_path ParseResult urlparse hostname repr decode parse_qs).
Abbreviation exec := (exec ParseResult urlparse hostname repr decode parse_qs).
Abbreviation cached_host base :=
  (try_hostname ParseResult urlparse hostname (rstrip "/" base)).
Abbreviation py_str := (py_str repr).
Abbreviation merged_params := (merged_params decode parse_qs).
Abbreviation prepare_params := (prepare_params decode parse_qs).


(** A location allocated after [lh] is unused in the heap before [lh]. *)
Lemma fresh_after_unused (h : gmap loc obj) (lh : loc) (o : obj) :
  h !! fresh (dom (<[lh := o]> h)) = None.
Proof.
  pose proof (fresh_unused (<[lh := o]> h)) as H.
  apply lookup_insert_None in H. tauto.
Qed.

Lemma alloc_frame2 (h : gmap loc obj) (o1 o2 : obj) (l : loc) :
  is_Some (h !! l) →
  <[fresh (dom (<[fresh (dom h) := o1]> h)) := o2]> (<[fresh (dom h) := o1]> h) !! l
  = h !! l.
Proof.
  intros Hl. rewrite alloc_frame; [by apply alloc_frame|].
  by rewrite alloc_frame.
Qed.

Lemma hook_paths self method url kwargs w :
  hook_path
    self method url kwargs w.
Proof.
  destruct (urlparse (py_str url)) as [parsed|] eqn:Hp.
  - pose proof (should_intercept_world (hostname parsed) w) as Hw.
    destruct (should_intercept (hostname parsed) w) as [r w0] eqn:Hd.
    simpl in Hw. subst w0. destruct r as [[|]|e].
    + destruct (headers_of (heap w) (default VNone (kwargs !! "headers")))
        as [d|] eqn:Hh.
      * apply (path_rewrite _ _ _ _ _ _ _ _ _ _ _ parsed d); auto.
        eapply hook_rewrite; eauto.
      * apply (path_headers_raise _ _ _ _ _ _ _ _ _ _ _ parsed); auto.
        by eapply hook_rewrite_unsupported.
    + apply (path_pass _ _ _ _ _ _ _ _ _ _ _ parsed); auto. by eapply hook_pass.
    + apply (path_decision_raises _ _ _ _ _ _ _ _ _ _ _ parsed e); auto.
      by eapply hook_decision_raises.
  - apply path_unparsed; [done|]. by apply hook_unparsed.
Qed.

(** The hook writes neither [_state] nor [requests.Session.request], and
    leaves every object of the heap as it was: it only creates objects. *)
Lemma hook_frame self method url kwargs w :
  let w' := (_patched_request self method url kwargs w).2 in
  state w' = state w ∧ session_request w' = session_request w ∧
  ∀ l, is_Some (heap w !! l) → heap w' !! l = heap w !! l.
Proof.
  destruct (hook_paths self method url kwargs w) as
    [? ->|? ? ? ->|? ? ? ? ->|? ? ? ? ->|? ? ? ? ? ->];
    simpl; rewrite ?call_world; simpl; repeat split; try done.
  intros l Hl. by apply alloc_frame2.
Qed.

(** ** The interception decision *)

Lemma rewrite_changes_world self method url kwargs w parsed :
  urlparse (py_str url) = Some parsed →
  should_intercept (hostname parsed) w = (Ok true, w) →
  ¬ passed_through self method url kwargs w.
Proof.
  intros Hp Hd (f & Hf & Heq).
  destruct (headers_of (heap w) (default VNone (kwargs !! "headers")))
    as [d|] eqn:Hh.
  - erewrite hook_rewrite in Heq by eauto. rewrite Hf in Heq. simpl in Heq.
    unfold ret in Heq. apply (f_equal snd) in Heq. simpl in Heq.
    apply (f_equal heap) in Heq. simpl in Heq.
    apply (f_equal (.!! fresh (dom (<[fresh (dom (heap w))
             := ODict (auth_headers (proxy_token (state w)) d)]> (heap w))))) in Heq.
    rewrite lookup_insert_eq, fresh_after_unused in Heq. discriminate.
  - erewrite hook_rewrite_unsupported in Heq by eauto. discriminate.
Qed.

Lemma decision_true_redirects self method url kwargs w parsed f :
  urlparse (py_str url) = Some parsed →
  original_request (state w) = Some f →
  should_intercept (hostname parsed) w = (Ok true, w) →
  intercepted self method url kwargs w.
Proof.
  intros Hp Hf Hd. split; [by eapply rewrite_changes_world|]. split.
  - intros c w' Heq.
    destruct (headers_of (heap w) (default VNone (kwargs !! "headers")))
      as [d|] eqn:Hh.
    + erewrite hook_rewrite in Heq by eauto. rewrite Hf in Heq.
      by injection Heq as <- <-.
    + erewrite hook_rewrite_unsupported in Heq by eauto. discriminate.
  - intros [d Hh]. erewrite hook_rewrite by eauto. rewrite Hf. by do 2 eexists.
Qed.

Lemma decision_false_passes self method url kwargs w parsed f :
  urlparse (py_str url) = Some parsed →
  original_request (state w) = Some f →
  should_intercept (hostname parsed) w = (Ok false, w) →
  passed_through self method url kwargs w.
Proof.
  intros Hp Hf Hd. exists f. split; [done|].
  erewrite hook_pass by eauto. by rewrite Hf.
Qed.

Lemma passed_not_redirected self method url kwargs w :
  passed_through self method url kwargs w → ¬ intercepted self method url kwargs w.
Proof. by intros Hp [Hn _]. Qed.

(** C1: for a request whose URL parses, handled by the hook of a
    configured proxy (the original request function is saved and
    [intercepted_hosts] is a set): in intercept-all mode it is
    intercepted exactly when the parsed hostname differs from the cached
    forwarder hostname; in host mode exactly when the parsed hostname is
    a member of the configured host set; and a request that is not
    intercepted is handed to the original request function with the
    caller's [self], method, URL and keyword arguments, nothing having
    been written. *)
Theorem hook_decision self method url kwargs w parsed f s :
  urlparse (py_str url) = Some parsed →
  original_request (state w) = Some f →
  configured_hosts w = Some s →
  (intercept_all (state w) = true →
     (intercepted self method url kwargs w
      ↔ hostname parsed ≠ forwarder_host (state w))) ∧
  (intercept_all (state w) = false →
     (intercepted self method url kwargs w
      ↔ ∃ x, hostname parsed = Some x ∧ x ∈ s)) ∧
  (¬ intercepted self method url kwargs w →
     _patched_request self method url kwargs w
     = (Ok (mkCall f self method url kwargs), w)).
Proof.
  intros Hp Hf Hs.
  assert (∃ b, should_intercept (hostname parsed) w = (Ok b, w) ∧
            (intercept_all (state w) = true →
               (b = true ↔ hostname parsed ≠ forwarder_host (state w))) ∧
            (intercept_all (state w) = false →
               (b = true ↔ ∃ x, hostname parsed = Some x ∧ x ∈ s)))
    as (b & Hd & Hall & Hhost).
  { destruct (intercept_all (state w)) eqn:Hia.
    - eexists. split; [by apply should_intercept_all|]. split; [|done].
      intros _. rewrite negb_true_iff, bool_decide_eq_false. done.
    - eexists. split; [by eapply should_intercept_hosts|]. split; [done|].
      intros _. destruct (hostname parsed) as [x|].
      + rewrite bool_decide_eq_true. split; [eauto|]. by intros (? & [= <-] & ?).
      + split; [done|]. by intros (? & ? & ?). }
  assert (b = true → intercepted self method url kwargs w) as Hred.
  { intros ->. by eapply decision_true_redirects. }
  assert (b = false → passed_through self method url kwargs w) as Hpass.
  { intros ->. by eapply decision_false_passes. }
  split; [|split].
  - intros Hia. rewrite <- (Hall Hia). split; [|done].
    intros Hr. destruct b; [done|]. by destruct (passed_not_redirected _ _ _ _ _ (Hpass eq_refl)).
  - intros Hia. rewrite <- (Hhost Hia). split; [|done].
    intros Hr. destruct b; [done|]. by destruct (passed_not_redirected _ _ _ _ _ (Hpass eq_refl)).
  - intros Hn. destruct b; [by destruct Hn; auto|].
    destruct (Hpass eq_refl) as (f' & Hf' & Heq). congruence.
Qed.

(** ** Activation with an empty token *)

(** C3: [setup_proxy] called with a falsy token ([None] or the empty
    string) raises [ValueError] and returns the world it was given: the
    active flag, base URL, token, intercept mode, host set, cached
    forwarder hostname, saved original request, the installed request
    function and every object of the heap are as before the call,
    whether the proxy was active or not. *)
Theorem setup_proxy_empty_token_raises tok base hosts ia extra w :
  tok = None ∨ tok = Some "" →
  setup_proxy tok base hosts ia extra w = (Raised ValueError, w).
Proof. intros H. by apply setup_proxy_falsy, truthy_str_false. Qed.

(** ** Re-activation *)

(** C8: [setup_proxy] called with a non-empty token while the proxy is
    active returns normally; token, base URL, intercept mode, host set and
    cached forwarder hostname hold the newly resolved values; the active
    flag, the saved original request and the installed request function are
    unchanged, and so is every object the heap held before. *)
Theorem setup_proxy_reactivate t base hosts ia extra w :
  t ≠ "" → active (state w) = true →
  ∃ w', setup_proxy (Some t) base hosts ia extra w = (Ok tt, w') ∧
    proxy_token (state w') = Some t ∧
    proxy_base_url (state w') = Some (rstrip "/" base) ∧
    intercept_all (state w') = ia ∧
    heap w' !! intercepted_hosts (state w')
      = Some (OSet (resolve_hosts hosts ia extra)) ∧
    forwarder_host (state w') = cached_host base ∧
    active (state w') = true ∧
    original_request (state w') = original_request (state w) ∧
    session_request w' = session_request w ∧
    (∀ l, is_Some (heap w !! l) → heap w' !! l = heap w !! l).
Proof.
  intros Ht Ha. eexists. split.
  { apply setup_proxy_active; [|done]. apply truthy_str_true. eauto. }
  simpl. rewrite lookup_insert_eq. repeat split; try done.
  intros l Hl. by apply alloc_frame.
Qed.

(** ** Activation followed by deactivation *)

(** C5: from an inactive state, [setup_proxy] with a non-empty token
    followed by [disable_proxy] returns normally and leaves
    [requests.Session.request] exactly as it was before the activation,
    whatever it was; the active flag is false and the saved reference to
    the original request function is cleared. *)
Theorem activate_deactivate_roundtrip t base hosts ia extra w :
  t ≠ "" → active (state w) = false →
  ∃ w', (setup_proxy (Some t) base hosts ia extra ;; disable_proxy) w = (Ok tt, w') ∧
    session_request w' = session_request w ∧
    active (state w') = false ∧
    original_request (state w') = None.
Proof.
  intros Ht Ha. eexists. split.
  { unfold bind at 1. rewrite setup_proxy_inactive; [|apply truthy_str_true; eauto|done].
    by rewrite disable_proxy_active. }
  done.
Qed.

(** While active, the hook is installed between the two calls. *)
Lemma setup_proxy_installs_hook t base hosts ia extra w :
  t ≠ "" → active (state w) = false →
  session_request (setup_proxy (Some t) base hosts ia extra w).2 = Some PatchedRequest
  ∧ original_request (state (setup_proxy (Some t) base hosts ia extra w).2)
    = session_request w.
Proof.
  intros Ht Ha.
  rewrite setup_proxy_inactive; [done|apply truthy_str_true; eauto|done].
Qed.

(** ** The host-set getter *)

(** The getter returns a new set object: its location was unused, so it
    differs from the location of the internal set, it holds the same
    members, and the internal set and [_state] are unchanged. *)
Lemma get_intercepted_hosts_snapshot w s :
  heap w !! intercepted_hosts (state w) = Some (OSet s) →
  ∃ l w', get_intercepted_hosts w = (Ok l, w') ∧
    l ≠ intercepted_hosts (state w) ∧
    heap w !! l = None ∧
    heap w' !! l = Some (OSet s) ∧
    heap w' !! intercepted_hosts (state w) = Some (OSet s) ∧
    state w' = state w.
Proof.
  intros Hs. exists (fresh (dom (heap w))), (set_heap (<[fresh (dom (heap w)) := OSet s]> (heap w)) w).
  split; [unfold get_intercepted_hosts; run; by rewrite Hs|].
  split; [by eapply fresh_ne|]. split; [apply fresh_unused|].
  simpl. rewrite lookup_insert_eq. split; [done|]. split; [|done].
  rewrite alloc_frame; eauto.
Qed.

(** In intercept-all mode the resolved host set is empty. *)
Lemma resolve_hosts_intercept_all hosts extra :
  resolve_hosts hosts true extra = ∅.
Proof. reflexivity. Qed.

Lemma get_intercepted_hosts_intercept_all t base hosts extra w :
  t ≠ "" →
  ∃ l w', (setup_proxy (Some t) base hosts true extra ;; get_intercepted_hosts) w
          = (Ok l, w') ∧ heap w' !! l = Some (OSet ∅).
Proof.
  intros Ht. unfold bind at 1.
  destruct (active (state w)) eqn:Ha.
  - rewrite setup_proxy_active; [|apply truthy_str_true; eauto|done].
    do 2 eexists. unfold get_intercepted_hosts. run.
    rewrite lookup_insert_eq. split; [done|]. simpl. by rewrite lookup_insert_eq.
  - rewrite setup_proxy_inactive; [|apply truthy_str_true; eauto|done].
    do 2 eexists. unfold get_intercepted_hosts. run.
    rewrite lookup_insert_eq. split; [done|]. simpl. by rewrite lookup_insert_eq.
Qed.

(** ** Malformed URLs *)

(** C7: when [urlparse] raises on the URL, the hook hands the request to
    the original request function with the caller's [self], method, URL
    and keyword arguments, writes nothing, and raises nothing itself. *)
Theorem hook_malformed_url self method url kwargs w f :
  urlparse (py_str url) = None →
  original_request (state w) = Some f →
  _patched_request self method url kwargs w = (Ok (mkCall f self method url kwargs), w).
Proof. intros Hp Hf. rewrite hook_unparsed by done. by rewrite Hf. Qed.

(** ** The loop guard without a hostname *)

(** C10: in intercept-all mode, a request whose URL has no hostname is
    intercepted whenever a forwarder hostname is cached; a request passes
    through exactly when its parsed hostname equals the cached forwarder
    hostname; in particular it passes through when both are absent. *)
Theorem hook_loop_guard_no_hostname self method url kwargs w parsed f :
  urlparse (py_str url) = Some parsed →
  original_request (state w) = Some f →
  intercept_all (state w) = true →
  (hostname parsed = None → is_Some (forwarder_host (state w)) →
     intercepted self method url kwargs w) ∧
  (passed_through self method url kwargs w
   ↔ hostname parsed = forwarder_host (state w)) ∧
  (hostname parsed = None → forwarder_host (state w) = None →
     _patched_request self method url kwargs w
     = (Ok (mkCall f self method url kwargs), w)).
Proof.
  intros Hp Hf Hia.
  pose proof (should_intercept_all (hostname parsed) w Hia) as Hd.
  assert (hostname parsed = forwarder_host (state w) →
          _patched_request self method url kwargs w
          = (Ok (mkCall f self method url kwargs), w)) as Heq.
  { intros He. rewrite bool_decide_eq_true_2 in Hd by done.
    erewrite hook_pass by eauto. by rewrite Hf. }
  assert (hostname parsed ≠ forwarder_host (state w) →
          intercepted self method url kwargs w) as Hne.
  { intros He. rewrite bool_decide_eq_false_2 in Hd by done.
    by eapply decision_true_redirects. }
  split; [|split].
  - intros Hn [fh Hfh]. apply Hne. congruence.
  - split.
    + intros Hpass.
      destruct (decide (hostname parsed = forwarder_host (state w))); [done|].
      by destruct (passed_not_redirected _ _ _ _ _ Hpass); auto.
    + intros He. exists f. auto.
  - intros Hn Hfh. apply Heq. congruence.
Qed.

(** ** The rewritten request *)

Lemma caller_headers_of h (kwargs : gmap string pyval) d :
  caller_headers h (kwargs !! "headers") d →
  headers_of h (default VNone (kwargs !! "headers")) = Some d.
Proof.
  intros [[[-> | ->] ->]|(l & -> & Hl)]; try done.
  unfold headers_of. simpl. rewrite Hl.
  destruct (decide (d = ∅)) as [->|Hne].
  - by rewrite bool_decide_eq_true_2.
  - by rewrite bool_decide_eq_false_2.
Qed.

(** An intercepted request that returns went down the rewriting path. *)
Lemma redirected_inv self method url kwargs w c w' :
  intercepted self method url kwargs w →
  _patched_request self method url kwargs w = (Ok c, w') →
  ∃ f d, original_request (state w) = Some f ∧
    headers_of (heap w) (default VNone (kwargs !! "headers")) = Some d ∧
    let lh := fresh (dom (heap w)) in
    let h1 := <[lh := ODict (auth_headers (proxy_token (state w)) d)]> (heap w) in
    let lp := fresh (dom h1) in
    c = mkCall f self method (VStr (forward_url w))
          (<["params" := VRef lp]> (<["headers" := VRef lh]> kwargs)) ∧
    w' = set_heap (<[lp := merged_params h1
                           (default VNone (kwargs !! "params")) url]> h1) w.
Proof.
  intros (Hn & _ & _) Heq.
  destruct (hook_paths self method url kwargs w) as
    [? Hc|? ? ? Hc|? ? ? ? Hc|? ? ? ? Hc|? d ? ? Hd Hc]; rewrite Hc in Heq.
  - destruct (original_request (state w)) as [f|] eqn:Hf; [|discriminate].
    destruct Hn. exists f. split; [done|]. by rewrite Hc.
  - destruct (original_request (state w)) as [f|] eqn:Hf; [|discriminate].
    destruct Hn. exists f. split; [done|]. by rewrite Hc.
  - discriminate.
  - discriminate.
  - destruct (original_request (state w)) as [f|] eqn:Hf; [|discriminate].
    exists f, d. simpl in Heq. unfold ret in Heq.
    injection Heq as <- <-. done.
Qed.

(** C4: an intercepted request whose headers are a mapping (or absent)
    is sent to the stored base URL followed by [/forward]; its headers are
    a new dict, at a location unused before, holding the caller's headers
    with [Authorization] set to [Bearer ] followed by the token and
    [X-Api-Token] set to the token; every other header is as the caller
    gave it, and every object of the heap, the caller's header dict
    included, is as it was. *)
Theorem intercepted_url_and_headers self method url kwargs w base tok d :
  proxy_base_url (state w) = Some base →
  proxy_token (state w) = Some tok →
  caller_headers (heap w) (kwargs !! "headers") d →
  intercepted self method url kwargs w →
  ∃ c w' l',
    _patched_request self method url kwargs w = (Ok c, w') ∧
    call_url c = VStr (base ++ "/forward") ∧
    call_kwargs c !! "headers" = Some (VRef l') ∧
    heap w !! l' = None ∧
    heap w' !! l'
      = Some (ODict (<["X-Api-Token" := VStr tok]>
                       (<["Authorization" := VStr ("Bearer " ++ tok)]> d))) ∧
    (∀ k, k ≠ "Authorization" → k ≠ "X-Api-Token" →
       (<["X-Api-Token" := VStr tok]>
          (<["Authorization" := VStr ("Bearer " ++ tok)]> d)) !! k = d !! k) ∧
    (∀ l, is_Some (heap w !! l) → heap w' !! l = heap w !! l).
Proof.
  intros Hb Ht Hh Hr. apply caller_headers_of in Hh.
  destruct Hr as (Hn & Hu & Hex).
  destruct Hex as (c & w' & Heq); [by eexists|].
  destruct (redirected_inv self method url kwargs w c w' (conj Hn (conj Hu
    (λ _, ex_intro _ c (ex_intro _ w' Heq)))) Heq)
    as (f & d' & Hf & Hd' & -> & ->).
  rewrite Hh in Hd'. injection Hd' as <-.
  exists (mkCall f self method (VStr (forward_url w))
            (<["params" := VRef (fresh (dom (<[fresh (dom (heap w))
                 := ODict (auth_headers (proxy_token (state w)) d)]> (heap w))))]>
               (<["headers" := VRef (fresh (dom (heap w)))]> kwargs))).
  eexists. exists (fresh (dom (heap w))).
  split; [exact Heq|]. simpl.
  split; [unfold forward_url; by rewrite Hb|].
  split; [rewrite lookup_insert_ne by done; apply lookup_insert_eq|].
  split; [apply fresh_unused|].
  split.
  { rewrite lookup_insert_ne.
    - rewrite lookup_insert_eq. unfold auth_headers. by rewrite Ht.
    - intros He. pose proof (fresh_unused (<[fresh (dom (heap w))
        := ODict (auth_headers (proxy_token (state w)) d)]> (heap w))) as Hfr.
      rewrite He, lookup_insert_eq in Hfr. discriminate. }
  split.
  { intros k H1 H2. by rewrite !lookup_insert_ne. }
  intros l Hl. by apply alloc_frame2.
Qed.

Lemma merged_params_shape h o sh raw url :
  has_shape h raw sh →
  merged_params (<[fresh (dom h) := o]> h) (default VNone raw) url
  = spec_params sh url.
Proof.
  destruct sh as [|d|vs]; simpl.
  - by intros [-> | ->].
  - intros (l & -> & Hl). simpl.
    rewrite alloc_frame by eauto. by rewrite Hl.
  - intros [-> | [-> | (l & -> & Hl)]]; simpl; try done.
    rewrite alloc_frame by eauto. by rewrite Hl.
Qed.

(** X22: for an intercepted request whose query parameters are a mapping,
    a sequence of pairs (a list or a tuple) or absent, the [params] of the
    rewritten request are a new object, at a location unused before: the
    caller's mapping with [url] set, the caller's sequence followed by
    [("url", url)], or a mapping with [url] only.  It carries the original
    URL under [url] and every other parameter the caller supplied, and
    every object of the heap, the caller's own parameters included, is as
    it was. *)
Theorem intercepted_params self method url kwargs w c w' sh :
  intercepted self method url kwargs w →
  _patched_request self method url kwargs w = (Ok c, w') →
  has_shape (heap w) (kwargs !! "params") sh →
  ∃ lp,
    call_kwargs c !! "params" = Some (VRef lp) ∧
    heap w !! lp = None ∧
    heap w' !! lp = Some (spec_params sh url) ∧
    carries (spec_params sh url) "url" url ∧
    (∀ k v, k ≠ "url" → supplied sh k v →
       carries (spec_params sh url) k v) ∧
    (∀ l, is_Some (heap w !! l) → heap w' !! l = heap w !! l).
Proof.
  intros Hr Heq Hsh.
  destruct (redirected_inv _ _ _ _ _ _ _ Hr Heq) as (f & d & Hf & Hd & -> & ->).
  eexists. simpl.
  split; [apply lookup_insert_eq|].
  split; [apply fresh_after_unused|].
  split; [rewrite lookup_insert_eq; f_equal; by apply merged_params_shape|].
  split; [|split].
  - destruct sh; simpl.
    + apply lookup_insert_eq.
    + apply lookup_insert_eq.
    + apply elem_of_app. right. apply list_elem_of_singleton. done.
  - intros k v Hk Hs. destruct sh; simpl in *.
    + done.
    + by rewrite lookup_insert_ne.
    + apply elem_of_app. by left.
  - intros l Hl. by apply alloc_frame2.
Qed.

(** For [params] given as bytes the rewritten request carries what
    [parse_qs] returns for the decoded text, and nothing else but [url]: a
    name [parse_qs] does not return is not sent. *)
Lemma intercepted_params_raw_query self method url kwargs w c w' b :
  intercepted self method url kwargs w →
  _patched_request self method url kwargs w = (Ok c, w') →
  kwargs !! "params" = Some (VBytes b) →
  ∃ lp d,
    call_kwargs c !! "params" = Some (VRef lp) ∧
    heap w' !! lp = Some (ODict d) ∧
    d = <["url" := url]> (unwrap_single <$> parse_qs (decode b)) ∧
    (∀ k, k ≠ "url" → parse_qs (decode b) !! k = None → d !! k = None).
Proof.
  intros Hr Heq Hraw.
  destruct (redirected_inv _ _ _ _ _ _ _ Hr Heq) as (f & d & Hf & Hd & -> & ->).
  do 2 eexists. simpl.
  split; [apply lookup_insert_eq|].
  split; [by rewrite lookup_insert_eq, Hraw|].
  split; [done|].
  intros k Hk Hnone. rewrite lookup_insert_ne by done.
  by rewrite lookup_fmap, Hnone.
Qed.

(** A parameter shape outside the documented ones, such as a query
    string given as [str], falls to the last branch: only [url] is sent. *)
Lemma prepare_params_str q url w :
  prepare_params (VStr q) url w =
    (Ok (fresh (dom (heap w))),
     set_heap (<[fresh (dom (heap w)) := ODict {[ "url" := url ]}]> (heap w)) w).
Proof. by rewrite prepare_params_run. Qed.

(** ** Invariants *)

Lemma get_intercepted_hosts_frame w :
  let w' := (get_intercepted_hosts w).2 in
  state w' = state w ∧ session_request w' = session_request w ∧
  ∀ l, is_Some (heap w !! l) → heap w' !! l = heap w !! l.
Proof.
  unfold get_intercepted_hosts. run.
  destruct (heap w !! intercepted_hosts (state w)) as [[]|]; simpl;
    repeat split; try done.
  intros l Hl. by apply alloc_frame.
Qed.

(** C9: every operation (activation, deactivation, the getters and the
    hook), whether it returns or raises, leaves a world in which the
    stored token is a non-empty string whenever the active flag is true,
    provided the world it started from was such a world. *)
Theorem token_invariant_preserved op w :
  token_invariant w → token_invariant (exec op w).
Proof.
  intros Hinv. destruct op as [tok base hosts ia extra| | | | |self method url kwargs];
    simpl.
  - destruct (truthy_str tok) eqn:Ht.
    + destruct (active (state w)) eqn:Ha.
      * rewrite setup_proxy_active by done. intros _. simpl.
        by apply truthy_str_true.
      * rewrite setup_proxy_inactive by done. intros _. simpl.
        by apply truthy_str_true.
    + by rewrite setup_proxy_falsy.
  - destruct (active (state w)) eqn:Ha.
    + rewrite disable_proxy_active by done. by intros [=].
    + by rewrite disable_proxy_inactive.
  - done.
  - done.
  - destruct (get_intercepted_hosts_frame w) as (Hs & _ & _).
    unfold token_invariant. by rewrite Hs.
  - destruct (hook_frame self method url kwargs w) as (Hs & _ & _).
    unfold token_invariant. by rewrite Hs.
Qed.

(** Hence the invariant holds after any sequence of operations on the
    module as loaded. *)
Lemma token_invariant_reachable ops request :
  token_invariant (foldl (λ w op, exec op w) (initial_world request) ops).
Proof.
  induction ops as [|op ops IH] using rev_ind.
  - by intros [=].
  - rewrite foldl_snoc. by apply token_invariant_preserved.
Qed.

(** [_state["intercepted_hosts"]] always refers to a set. *)
Lemma configured_hosts_preserved op w :
  is_Some (configured_hosts w) → is_Some (configured_hosts (exec op w)).
Proof.
  intros Hinv.
  assert (∀ w', state w' = state w →
            (∀ l, is_Some (heap w !! l) → heap w' !! l = heap w !! l) →
            is_Some (configured_hosts w')) as Hframe.
  { intros w' Hs Hh. unfold configured_hosts in *. rewrite Hs.
    destruct (heap w !! intercepted_hosts (state w)) as [o|] eqn:Hl;
      [|by destruct Hinv].
    rewrite Hh, Hl by (by rewrite Hl). done. }
  destruct op as [tok base hosts ia extra| | | | |self method url kwargs];
    simpl.
  - destruct (truthy_str tok) eqn:Ht.
    + destruct (active (state w)) eqn:Ha.
      * rewrite setup_proxy_active by done. unfold configured_hosts. simpl.
        by rewrite lookup_insert_eq.
      * rewrite setup_proxy_inactive by done. unfold configured_hosts. simpl.
        by rewrite lookup_insert_eq.
    + by rewrite setup_proxy_falsy.
  - destruct (active (state w)) eqn:Ha.
    + by rewrite disable_proxy_active.
    + by rewrite disable_proxy_inactive.
  - done.
  - done.
  - destruct (get_intercepted_hosts_frame w) as (Hs & _ & Hh). by apply Hframe.
  - destruct (hook_frame self method url kwargs w) as (Hs & _ & Hh).
    by apply Hframe.
Qed.

Lemma intercept_all_empty_preserved op w :
  intercept_all_empty w → intercept_all_empty (exec op w).
Proof.
  intros Hinv.
  assert (∀ w', state w' = state w →
            (∀ l, is_Some (heap w !! l) → heap w' !! l = heap w !! l) →
            intercept_all_empty w') as Hframe.
  { intros w' Hs Hh Hia. rewrite Hs in Hia. specialize (Hinv Hia).
    unfold configured_hosts in *. rewrite Hs.
    destruct (heap w !! intercepted_hosts (state w)) as [o|] eqn:Hl;
      [|discriminate].
    rewrite Hh, Hl by (by rewrite Hl). done. }
  destruct op as [tok base hosts ia extra| | | | |self method url kwargs];
    simpl.
  - destruct (truthy_str tok) eqn:Ht.
    + destruct (active (state w)) eqn:Ha.
      * rewrite setup_proxy_active by done. unfold intercept_all_empty,
          configured_hosts. simpl. rewrite lookup_insert_eq. by intros ->.
      * rewrite setup_proxy_inactive by done. unfold intercept_all_empty,
          configured_hosts. simpl. rewrite lookup_insert_eq. by intros ->.
    + by rewrite setup_proxy_falsy.
  - destruct (active (state w)) eqn:Ha.
    + by rewrite disable_proxy_active.
    + by rewrite disable_proxy_inactive.
  - done.
  - done.
  - destruct (get_intercepted_hosts_frame w) as (Hs & _ & Hh). by apply Hframe.
  - destruct (hook_frame self method url kwargs w) as (Hs & _ & Hh).
    by apply Hframe.
Qed.

End Claims.

(** * Further properties of the module *)

Section Extras.

Variable ParseResult : Type.
Variable urlparse : string → option ParseResult.
Variable hostname : ParseResult → option string.
Variable repr : pyval → string.
Variable decode : list Byte.byte → string.
Variable parse_qs : string → gmap string (list string).

Abbreviation setup_proxy := (setup_proxy ParseResult urlparse hostname).
Abbreviation _patched_request :=
  (_patched_request ParseResult urlparse hostname repr decode parse_qs).
Abbreviation passed_through :=
  (passed_through ParseResult urlparse hostname repr decode parse_qs).
Abbreviation intercepted :=
  (intercepted ParseResult urlparse hostname repr decode parse_qs).
Abbreviation exec := (exec ParseResult urlparse hostname repr decode parse_qs).
Abbreviation try_hostname := (try_hostname ParseResult urlparse hostname).
Abbreviation py_str := (py_str repr).

(** ** Deactivation *)

(** X1: [disable_proxy] twice is [disable_proxy] once: the second call finds
    the proxy inactive and does nothing. *)
Theorem disable_proxy_idempotent w :
  (disable_proxy ;; disable_proxy) w = disable_proxy w.
Proof.
  unfold bind at 1. destruct (active (state w)) eqn:Ha.
  - rewrite disable_proxy_active by done. by rewrite disable_proxy_inactive.
  - rewrite disable_proxy_inactive by done. by rewrite disable_proxy_inactive.
Qed.

(** X2: [disable_proxy] keeps the configuration: base URL, token, mode, host
    set, cached forwarder hostname and every object of the heap are as
    before, so [get_proxy_url] answers the same and the host set is the
    same set. *)
Theorem disable_proxy_keeps_configuration w :
  let w' := (disable_proxy w).2 in
  (get_proxy_url w').1 = (get_proxy_url w).1 ∧
  proxy_token (state w') = proxy_token (state w) ∧
  intercept_all (state w') = intercept_all (state w) ∧
  forwarder_host (state w') = forwarder_host (state w) ∧
  configured_hosts w' = configured_hosts w ∧
  heap w' = heap w.
Proof.
  destruct (active (state w)) eqn:Ha.
  - by rewrite disable_proxy_active.
  - by rewrite disable_proxy_inactive.
Qed.

(** ** The host set resolved by [setup_proxy] *)

Lemma resolve_hosts_host_mode hosts extra x :
  x ∈ resolve_hosts hosts false extra ↔
    (if truthy_list hosts then x ∈ default [] hosts else x = DEFAULT_API_HOST)
    ∨ (x ∈ default [] extra).
Proof.
  unfold resolve_hosts. simpl.
  destruct (truthy_list extra) eqn:He.
  - rewrite elem_of_union, elem_of_list_to_set.
    destruct (truthy_list hosts).
    + by rewrite elem_of_list_to_set.
    + by rewrite elem_of_singleton.
  - assert (default [] extra = []) as -> by (by destruct extra as [[]|]).
    destruct (truthy_list hosts).
    + rewrite elem_of_list_to_set. split; [by left|]. intros [|H]; [done|].
      by apply elem_of_nil in H.
    + rewrite elem_of_singleton. split; [by left|]. intros [|H]; [done|].
      by apply elem_of_nil in H.
Qed.

(** X3: After [setup_proxy] in host mode, whatever the state before, the
    configured set holds exactly: the given [hosts] when the list is
    non-empty, the default host otherwise, and in both cases the legacy
    [extra_hosts]; it is never empty. *)
Theorem setup_proxy_host_set t base hosts extra w :
  t ≠ "" →
  ∃ s, configured_hosts (setup_proxy (Some t) base hosts false extra w).2 = Some s
    ∧ (∀ x, x ∈ s ↔
         (if truthy_list hosts then x ∈ default [] hosts
          else x = DEFAULT_API_HOST)
         ∨ x ∈ default [] extra)
    ∧ s ≠ ∅.
Proof.
  intros Ht. exists (resolve_hosts hosts false extra).
  assert (truthy_str (Some t) = true) as Htr by (apply truthy_str_true; eauto).
  split; [|split].
  - destruct (active (state w)) eqn:Ha.
    + rewrite setup_proxy_active by done. unfold configured_hosts. simpl.
      by rewrite lookup_insert_eq.
    + rewrite setup_proxy_inactive by done. unfold configured_hosts. simpl.
      by rewrite lookup_insert_eq.
  - intros x. apply resolve_hosts_host_mode.
  - intros He.
    destruct (truthy_list hosts) eqn:Hh.
    + destruct hosts as [[|h hs]|]; try discriminate.
      assert (h ∈ resolve_hosts (Some (h :: hs)) false extra) as Hin.
      { apply resolve_hosts_host_mode. left. simpl. apply list_elem_of_here. }
      rewrite He in Hin. by apply not_elem_of_empty in Hin.
    + assert (DEFAULT_API_HOST ∈ resolve_hosts hosts false extra) as Hin.
      { apply resolve_hosts_host_mode. left. by rewrite Hh. }
      rewrite He in Hin. by apply not_elem_of_empty in Hin.
Qed.

(** ** The stored base URL *)

Lemma rstrip_idempotent (c : ascii) (s : string) :
  rstrip c (rstrip c s) = rstrip c s.
Proof.
  induction s as [|a r IH]; simpl; [done|].
  destruct (rstrip c r) as [|b r'] eqn:Hr.
  - destruct (Ascii.eqb_spec a c) as [->|Hne]; simpl; [done|].
    by rewrite (proj2 (Ascii.eqb_neq a c) Hne).
  - simpl in *. by rewrite IH.
Qed.

(** X4: After [setup_proxy], [get_proxy_url] returns the base URL given, less
    its trailing slashes: the argument is the answer followed by slashes
    only, and the answer does not end in a slash. *)
Theorem get_proxy_url_after_setup t base hosts ia extra w :
  t ≠ "" →
  ∃ u n,
    (get_proxy_url (setup_proxy (Some t) base hosts ia extra w).2).1 = Ok u
    ∧ base = u ++ string_of_list_ascii (replicate n "/"%char)
    ∧ last_char u ≠ Some "/"%char.
Proof.
  intros Ht.
  assert (truthy_str (Some t) = true) as Htr by (apply truthy_str_true; eauto).
  destruct (rstrip_spec "/" base) as [n Hn].
  exists (rstrip "/" base), n. split; [|split; [done|apply rstrip_no_trailing]].
  destruct (active (state w)) eqn:Ha.
  - by rewrite setup_proxy_active.
  - by rewrite setup_proxy_inactive.
Qed.

(** X5: Activating again with the URL [get_proxy_url] reports stores that same
    URL: normalisation is idempotent. *)
Theorem setup_proxy_base_url_stable t t' base hosts ia extra hosts' ia' extra' w :
  t ≠ "" → t' ≠ "" →
  let w1 := (setup_proxy (Some t) base hosts ia extra w).2 in
  ∀ u, (get_proxy_url w1).1 = Ok u →
    (get_proxy_url (setup_proxy (Some t') u hosts' ia' extra' w1).2).1 = Ok u.
Proof.
  intros Ht Ht'.
  assert (truthy_str (Some t) = true) as Htr by (apply truthy_str_true; eauto).
  assert (truthy_str (Some t') = true) as Htr' by (apply truthy_str_true; eauto).
  assert (∀ b h i e w0, (get_proxy_url (setup_proxy (Some t') b h i e w0).2).1
                        = Ok (rstrip "/" b)) as Hget.
  { intros b h i e w0. destruct (active (state w0)) eqn:Ha.
    - by rewrite setup_proxy_active.
    - by rewrite setup_proxy_inactive. }
  assert ((get_proxy_url (setup_proxy (Some t) base hosts ia extra w).2).1
          = Ok (rstrip "/" base)) as Hget1.
  { destruct (active (state w)) eqn:Ha.
    - by rewrite setup_proxy_active.
    - by rewrite setup_proxy_inactive. }
  intros w1 u Hu. subst w1. rewrite Hget1 in Hu. injection Hu as <-.
  rewrite Hget. by rewrite rstrip_idempotent.
Qed.

(** ** Installation of the hook *)

Lemma installed_step op w :
  installed w → installed (exec op w).
Proof.
  unfold installed. intros Hinv.
  destruct op as [tok base hosts ia extra| | | | |self method url kwargs]; simpl.
  - destruct (truthy_str tok) eqn:Ht; [|by rewrite setup_proxy_falsy].
    destruct (active (state w)) eqn:Ha.
    + rewrite setup_proxy_active by done. done.
    + rewrite setup_proxy_inactive by done. simpl.
      destruct Hinv as (_ & n & Hn). eauto.
  - destruct (active (state w)) eqn:Ha.
    + rewrite disable_proxy_active by done. simpl.
      destruct Hinv as (_ & n & Hn). eauto.
    + rewrite disable_proxy_inactive by done. simpl. by rewrite Ha.
  - done.
  - done.
  - destruct (get_intercepted_hosts_frame w) as (Hs & Hr & _).
    by rewrite Hs, Hr.
  - destruct (hook_frame ParseResult urlparse hostname repr decode parse_qs
                self method url kwargs w) as (Hs & Hr & _).
    by rewrite Hs, Hr.
Qed.

(** X6: Every operation keeps the hook installed exactly while the proxy is
    active: when active, [requests.Session.request] is the hook and the
    function it replaced is saved; when inactive, nothing is saved and the
    function in place is not the hook. *)
Theorem installed_preserved op w :
  installed w → installed (exec op w).
Proof. apply installed_step. Qed.

(** X7: After any sequence of operations on the module as loaded,
    [is_active] answers [True] exactly when [requests.Session.request] is
    the hook. *)
Theorem is_active_reports_installation ops n :
  let w := foldl (λ w op, exec op w) (initial_world (Native n)) ops in
  (is_active w).1 = Ok true ↔ session_request w = Some PatchedRequest.
Proof.
  assert (installed (foldl (λ w op, exec op w) (initial_world (Native n)) ops))
    as Hinv.
  { induction ops as [|op ops IH] using rev_ind.
    - simpl. unfold installed. simpl. eauto.
    - rewrite foldl_snoc. by apply installed_step. }
  simpl. unfold installed in Hinv. unfold is_active. run.
  destruct (active (state _)).
  - destruct Hinv as (-> & _). done.
  - destruct Hinv as (_ & m & ->). split; intros [=].
Qed.

(** X8: The hook never hands a request to itself: whenever it returns a call
    in a world where it is installed, the callee is the function that was
    in place before the activation. *)
Theorem hook_never_calls_itself self method url kwargs w c w' :
  installed w →
  _patched_request self method url kwargs w = (Ok c, w') →
  callee c ≠ PatchedRequest ∧ Some (callee c) = original_request (state w).
Proof.
  unfold installed. intros Hinv Heq.
  assert (Some (callee c) = original_request (state w)) as Hc.
  { destruct (hook_paths ParseResult urlparse hostname repr decode parse_qs
                self method url kwargs w) as
      [? Hp|? ? ? Hp|? ? ? ? Hp|? ? ? ? Hp|? d ? ? Hd Hp]; rewrite Hp in Heq;
      try discriminate;
      destruct (original_request (state w)) as [f|]; try discriminate;
      simpl in Heq; unfold ret in Heq; by injection Heq as <- <-. }
  split; [|done].
  destruct (active (state w)).
  - destruct Hinv as (_ & n & Hn). rewrite Hn in Hc. by injection Hc as ->.
  - destruct Hinv as (Hn & _). rewrite Hn in Hc. discriminate.
Qed.

(** X9: Without a saved original request function (as after [disable_proxy]),
    a direct call of the hook never returns: every path ends in calling
    [None], or raises before. *)
Theorem hook_without_original_raises self method url kwargs w :
  original_request (state w) = None →
  ∃ e, (_patched_request self method url kwargs w).1 = Raised e.
Proof.
  intros Hn.
  destruct (hook_paths ParseResult urlparse hostname repr decode parse_qs
              self method url kwargs w) as
    [? Hp|? ? ? Hp|? ? ? ? Hp|? ? ? ? Hp|? d ? ? Hd Hp]; rewrite Hp, ?Hn;
    by eexists.
Qed.

(** X10: Activating twice and deactivating once restores the function that was
    in place before the first activation: the second activation does not
    save the hook as the original. *)
Theorem double_activation_restores_original t1 b1 h1 i1 e1 t2 b2 h2 i2 e2 w :
  t1 ≠ "" → t2 ≠ "" → active (state w) = false →
  ∃ w', (setup_proxy (Some t1) b1 h1 i1 e1 ;; setup_proxy (Some t2) b2 h2 i2 e2 ;;
         disable_proxy) w = (Ok tt, w')
    ∧ session_request w' = session_request w
    ∧ active (state w') = false
    ∧ original_request (state w') = None.
Proof.
  intros H1 H2 Ha.
  assert (truthy_str (Some t1) = true) as Ht1 by (apply truthy_str_true; eauto).
  assert (truthy_str (Some t2) = true) as Ht2 by (apply truthy_str_true; eauto).
  eexists. split.
  { unfold bind at 1. rewrite setup_proxy_inactive by done.
    unfold bind at 1. rewrite setup_proxy_active by done.
    by rewrite disable_proxy_active. }
  done.
Qed.

(** ** What the hook leaves alone *)

(** X11: On every path, returning or raising, the hook writes neither [_state]
    nor [requests.Session.request], and every object that was in the heap
    is unchanged afterwards: the hook only creates objects. *)
Theorem hook_writes_nothing self method url kwargs w :
  let w' := (_patched_request self method url kwargs w).2 in
  state w' = state w ∧ session_request w' = session_request w ∧
  ∀ l o, heap w !! l = Some o → heap w' !! l = Some o.
Proof.
  destruct (hook_frame ParseResult urlparse hostname repr decode parse_qs
              self method url kwargs w) as (Hs & Hr & Hh).
  simpl. repeat split; try done.
  intros l o Hl. rewrite Hh; [done|by eexists].
Qed.

(** X12: An intercepted request keeps the caller's [self] and method, is sent on
    the saved original request function, and every keyword argument other
    than [headers] and [params] (body, files, json, timeout, ...) is the
    caller's. *)
Theorem intercepted_other_options_untouched self method url kwargs w c w' :
  intercepted self method url kwargs w →
  _patched_request self method url kwargs w = (Ok c, w') →
  call_self c = self ∧ call_method c = method ∧
  Some (callee c) = original_request (state w) ∧
  ∀ k, k ≠ "headers" → k ≠ "params" → call_kwargs c !! k = kwargs !! k.
Proof.
  intros Hr Heq.
  destruct (redirected_inv ParseResult urlparse hostname repr decode parse_qs
              _ _ _ _ _ _ _ Hr Heq) as (f & d & Hf & Hd & -> & ->).
  simpl. repeat split; try done.
  intros k H1 H2. by rewrite !lookup_insert_ne.
Qed.

(** X13: A parameter argument of any other shape (a query string given as
    [str], a number, a set, ...) is not carried over: the rewritten request
    has [url] as its only parameter. *)
Theorem intercepted_params_other_shape self method url kwargs w c w' raw :
  intercepted self method url kwargs w →
  _patched_request self method url kwargs w = (Ok c, w') →
  kwargs !! "params" = Some raw →
  other_shape (heap w) raw →
  ∃ lp, call_kwargs c !! "params" = Some (VRef lp)
    ∧ heap w' !! lp = Some (ODict {[ "url" := url ]}).
Proof.
  intros Hr Heq Hraw Hsh.
  destruct (redirected_inv ParseResult urlparse hostname repr decode parse_qs
              _ _ _ _ _ _ _ Hr Heq) as (f & d & Hf & Hd & -> & ->).
  eexists. simpl. split; [apply lookup_insert_eq|].
  rewrite lookup_insert_eq, Hraw. simpl. f_equal.
  destruct raw; simpl in Hsh; try done.
  destruct Hsh as [st Hl]. unfold merged_params, as_dict, as_sequence.
  rewrite alloc_frame by eauto. by rewrite Hl.
Qed.

(** ** The decision, from activation to request *)

(** X14: In host mode a request whose URL has no hostname (a relative or
    schemeless URL) is never intercepted, whatever the configured set. *)
Theorem host_mode_no_hostname_passes self method url kwargs w parsed f s :
  urlparse (py_str url) = Some parsed →
  hostname parsed = None →
  intercept_all (state w) = false →
  configured_hosts w = Some s →
  original_request (state w) = Some f →
  _patched_request self method url kwargs w
  = (Ok (mkCall f self method url kwargs), w).
Proof.
  intros Hp Hn Hia Hs Hf.
  pose proof (should_intercept_hosts (hostname parsed) w s Hia Hs) as Hd.
  rewrite Hn in Hd at 2.
  erewrite hook_pass by eauto. by rewrite Hf.
Qed.

Lemma decision_outcome self method url kwargs w parsed f b :
  urlparse (py_str url) = Some parsed →
  original_request (state w) = Some f →
  should_intercept (hostname parsed) w = (Ok b, w) →
  (intercepted self method url kwargs w ↔ b = true) ∧
  (b = false → passed_through self method url kwargs w).
Proof.
  intros Hp Hf Hd. destruct b.
  - split; [|done]. split; [done|]. intros _.
    by eapply decision_true_redirects.
  - assert (passed_through self method url kwargs w) as Hpass
      by (by eapply decision_false_passes).
    split; [|done]. split; [|done].
    intros Hr. by destruct (passed_not_redirected _ _ _ _ _ _ _ _ _ _ _ Hpass).
Qed.

(** The world [setup_proxy] leaves, in one equation for both branches. *)
Lemma setup_proxy_result t base hosts ia extra w :
  t ≠ "" →
  (setup_proxy (Some t) base hosts ia extra w).2 =
    mkWorld (mkState (if active (state w) then original_request (state w)
                      else session_request w)
               (Some (rstrip "/" base)) (Some t) true ia (fresh (dom (heap w)))
               (try_hostname (rstrip "/" base)))
            (if active (state w) then session_request w else Some PatchedRequest)
            (<[fresh (dom (heap w)) := OSet (resolve_hosts hosts ia extra)]>
               (heap w)).
Proof.
  intros Ht.
  assert (truthy_str (Some t) = true) as Htr by (apply truthy_str_true; eauto).
  destruct (active (state w)) eqn:Ha.
  - by rewrite setup_proxy_active.
  - by rewrite setup_proxy_inactive.
Qed.

Lemma setup_proxy_saves_original t base hosts ia extra w :
  t ≠ "" → installed w →
  ∃ n, original_request (state (setup_proxy (Some t) base hosts ia extra w).2)
       = Some (Native n).
Proof.
  intros Ht Hinv. rewrite setup_proxy_result by done. simpl.
  unfold installed in Hinv. destruct (active (state w)).
  - by destruct Hinv as (_ & n & Hn); eauto.
  - by destruct Hinv as (_ & n & Hn); eauto.
Qed.

(** X15: After [setup_proxy] in host mode, a request whose URL parses is
    intercepted exactly when its hostname is one of the given [hosts] (the
    default host when none is given) or of the legacy [extra_hosts]; any
    other request passes through unchanged. *)
Theorem activation_host_mode t base hosts extra w self method url kwargs parsed :
  t ≠ "" → installed w →
  urlparse (py_str url) = Some parsed →
  let w1 := (setup_proxy (Some t) base hosts false extra w).2 in
  let listed x :=
    (if truthy_list hosts then x ∈ default [] hosts else x = DEFAULT_API_HOST)
    ∨ x ∈ default [] extra in
  (intercepted self method url kwargs w1
   ↔ ∃ x, hostname parsed = Some x ∧ listed x) ∧
  ((¬ ∃ x, hostname parsed = Some x ∧ listed x) →
   passed_through self method url kwargs w1).
Proof.
  intros Ht Hinv Hp w1 listed.
  destruct (setup_proxy_saves_original t base hosts false extra w Ht Hinv)
    as [n Hn]. fold w1 in Hn.
  assert (configured_hosts w1 = Some (resolve_hosts hosts false extra)) as Hs.
  { unfold w1. rewrite setup_proxy_result by done. unfold configured_hosts.
    simpl. by rewrite lookup_insert_eq. }
  assert (intercept_all (state w1) = false) as Hia.
  { unfold w1. by rewrite setup_proxy_result. }
  pose proof (should_intercept_hosts (hostname parsed) w1 _ Hia Hs) as Hd.
  destruct (decision_outcome self method url kwargs w1 parsed _ _ Hp Hn Hd)
    as (Hiff & Hpass).
  assert ((∃ x, hostname parsed = Some x ∧ listed x) ↔
          match hostname parsed with
          | Some x => bool_decide (x ∈ resolve_hosts hosts false extra)
          | None => false
          end = true) as Hb.
  { destruct (hostname parsed) as [x|].
    - rewrite bool_decide_eq_true, resolve_hosts_host_mode. split.
      + by intros (? & [= <-] & ?).
      + eauto.
    - split; [by intros (? & ? & ?)|done]. }
  split.
  - by rewrite Hiff, Hb.
  - intros Hno. apply Hpass. rewrite Hb in Hno. by apply not_true_is_false.
Qed.

(** X16: After [setup_proxy] in intercept-all mode, a request whose URL parses
    passes through exactly when its hostname is the hostname of the
    normalised base URL, and is intercepted otherwise; [hosts] and
    [extra_hosts] play no part. *)
Theorem activation_intercept_all t base hosts extra w self method url kwargs parsed :
  t ≠ "" → installed w →
  urlparse (py_str url) = Some parsed →
  let w1 := (setup_proxy (Some t) base hosts true extra w).2 in
  (intercepted self method url kwargs w1
   ↔ hostname parsed ≠ try_hostname (rstrip "/" base)) ∧
  (passed_through self method url kwargs w1
   ↔ hostname parsed = try_hostname (rstrip "/" base)).
Proof.
  intros Ht Hinv Hp w1.
  destruct (setup_proxy_saves_original t base hosts true extra w Ht Hinv)
    as [n Hn]. fold w1 in Hn.
  assert (intercept_all (state w1) = true) as Hia.
  { unfold w1. by rewrite setup_proxy_result. }
  assert (forwarder_host (state w1) = try_hostname (rstrip "/" base)) as Hfh.
  { unfold w1. by rewrite setup_proxy_result. }
  pose proof (should_intercept_all (hostname parsed) w1 Hia) as Hd.
  rewrite Hfh in Hd.
  destruct (decision_outcome self method url kwargs w1 parsed _ _ Hp Hn Hd)
    as (Hiff & Hpass).
  rewrite negb_true_iff, bool_decide_eq_false in Hiff.
  rewrite negb_false_iff, bool_decide_eq_true in Hpass.
  split; [done|]. split; [|done].
  intros Hpt.
  destruct (decide (hostname parsed = try_hostname (rstrip "/" base))); [done|].
  apply Hiff in n0. by destruct (passed_not_redirected _ _ _ _ _ _ _ _ _ _ _ Hpt).
Qed.

(** X17: When the base URL has no hostname for [urlparse] (it fails to parse,
    or it lacks a scheme), the loop guard protects nothing: in
    intercept-all mode every request that has a hostname is intercepted,
    requests to the forwarder included. *)
Theorem base_url_without_hostname_disables_guard
    t base hosts extra w self method url kwargs parsed x :
  t ≠ "" → installed w →
  try_hostname (rstrip "/" base) = None →
  urlparse (py_str url) = Some parsed →
  hostname parsed = Some x →
  intercepted self method url kwargs
    (setup_proxy (Some t) base hosts true extra w).2.
Proof.
  intros Ht Hinv Hb Hp Hx.
  destruct (setup_proxy_saves_original t base hosts true extra w Ht Hinv)
    as [n Hn].
  set (w1 := (setup_proxy (Some t) base hosts true extra w).2) in *.
  assert (intercept_all (state w1) = true) as Hia.
  { unfold w1. by rewrite setup_proxy_result. }
  assert (forwarder_host (state w1) = None) as Hfh.
  { unfold w1. rewrite setup_proxy_result by done. exact Hb. }
  pose proof (should_intercept_all (hostname parsed) w1 Hia) as Hd.
  rewrite Hfh in Hd. rewrite bool_decide_eq_false_2 in Hd by (by rewrite Hx).
  by eapply decision_true_redirects.
Qed.

(** X18: After [setup_proxy], an intercepted request goes to the given base
    URL, less its trailing slashes, followed by [/forward]: there is
    exactly one slash between the two. *)
Theorem activation_forward_url t base hosts ia extra w self method url kwargs c w' :
  t ≠ "" →
  let w1 := (setup_proxy (Some t) base hosts ia extra w).2 in
  intercepted self method url kwargs w1 →
  _patched_request self method url kwargs w1 = (Ok c, w') →
  ∃ u n, call_url c = VStr (u ++ "/forward")
    ∧ base = u ++ string_of_list_ascii (replicate n "/"%char)
    ∧ last_char u ≠ Some "/"%char.
Proof.
  intros Ht w1 Hr Heq.
  destruct (redirected_inv ParseResult urlparse hostname repr decode parse_qs
              _ _ _ _ _ _ _ Hr Heq) as (f & d & Hf & Hd & -> & _).
  destruct (rstrip_spec "/" base) as [n Hn].
  exists (rstrip "/" base), n. split; [|split; [done|apply rstrip_no_trailing]].
  simpl. unfold forward_url, w1. by rewrite setup_proxy_result.
Qed.

(** X19: After [setup_proxy] with token [t], the headers of an intercepted
    request carry [Authorization: Bearer t] and [X-Api-Token: t], whatever
    the caller had put under these two names. *)
Theorem activation_auth_headers t base hosts ia extra w self method url kwargs c w' :
  t ≠ "" →
  let w1 := (setup_proxy (Some t) base hosts ia extra w).2 in
  intercepted self method url kwargs w1 →
  _patched_request self method url kwargs w1 = (Ok c, w') →
  ∃ lh d, call_kwargs c !! "headers" = Some (VRef lh)
    ∧ heap w' !! lh = Some (ODict d)
    ∧ d !! "Authorization" = Some (VStr ("Bearer " ++ t))
    ∧ d !! "X-Api-Token" = Some (VStr t).
Proof.
  intros Ht w1 Hr Heq.
  destruct (redirected_inv ParseResult urlparse hostname repr decode parse_qs
              _ _ _ _ _ _ _ Hr Heq) as (f & d & Hf & Hd & -> & ->).
  assert (proxy_token (state w1) = Some t) as Htok.
  { unfold w1. by rewrite setup_proxy_result. }
  do 2 eexists. simpl.
  split; [rewrite lookup_insert_ne by done; apply lookup_insert_eq|].
  split.
  { rewrite lookup_insert_ne; [apply lookup_insert_eq|].
    intros He.
    pose proof (fresh_unused (<[fresh (dom (heap w1))
      := ODict (auth_headers (proxy_token (state w1)) d)]> (heap w1))) as Hfr.
    rewrite He, lookup_insert_eq in Hfr. discriminate. }
  unfold auth_headers. rewrite Htok. simpl.
  split; [rewrite lookup_insert_ne by done|]; apply lookup_insert_eq.
Qed.

(** ** The host-set getter *)

(** X20: [get_intercepted_hosts] returns a new set with the members of the
    configured one: its location was unused, so it is not the internal
    set; a second call returns yet another object; [_state] and the
    internal set are unchanged by both. *)
Theorem get_intercepted_hosts_returns_copies w s :
  configured_hosts w = Some s →
  ∃ l1 l2 w',
    (l1 <- get_intercepted_hosts ;; l2 <- get_intercepted_hosts ;; ret (l1, l2)) w
    = (Ok (l1, l2), w')
    ∧ l1 ≠ l2
    ∧ l1 ≠ intercepted_hosts (state w) ∧ l2 ≠ intercepted_hosts (state w)
    ∧ heap w !! l1 = None ∧ heap w !! l2 = None
    ∧ heap w' !! l1 = Some (OSet s) ∧ heap w' !! l2 = Some (OSet s)
    ∧ state w' = state w ∧ configured_hosts w' = Some s.
Proof.
  unfold configured_hosts. intros Hs.
  destruct (heap w !! intercepted_hosts (state w)) as [[| |s0]|] eqn:Hl;
    try discriminate. injection Hs as ->.
  pose proof (fresh_ne _ _ _ Hl) as Hne1.
  pose proof (fresh_after_unused (heap w) (fresh (dom (heap w))) (OSet s)) as Hf2.
  pose proof (fresh_unused (<[fresh (dom (heap w)) := OSet s]> (heap w))) as Hf2'.
  apply lookup_insert_None in Hf2' as [_ Hne12].
  assert (fresh (dom (<[fresh (dom (heap w)) := OSet s]> (heap w)))
          ≠ intercepted_hosts (state w)) as Hne2.
  { intros He. rewrite He, Hl in Hf2. discriminate. }
  do 3 eexists. split.
  { unfold get_intercepted_hosts. run. rewrite Hl. run.
    rewrite lookup_insert_ne by done. rewrite Hl. reflexivity. }
  simpl. rewrite lookup_insert_eq.
  rewrite (lookup_insert_ne _ _ (fresh (dom (heap w)))) by done.
  rewrite lookup_insert_eq.
  rewrite !lookup_insert_ne by done. rewrite Hl, fresh_unused.
  repeat split; done.
Qed.

(** X21: After any sequence of operations on the module as loaded,
    [get_intercepted_hosts] returns a set, and in intercept-all mode that
    set is empty. *)
Theorem get_intercepted_hosts_reachable ops request :
  let w := foldl (λ w op, exec op w) (initial_world request) ops in
  ∃ l w' s, get_intercepted_hosts w = (Ok l, w')
    ∧ heap w' !! l = Some (OSet s)
    ∧ (intercept_all (state w) = true → s = ∅).
Proof.
  assert (let w := foldl (λ w op, exec op w) (initial_world request) ops in
          is_Some (configured_hosts w) ∧ intercept_all_empty w) as [Hc He].
  { induction ops as [|op ops [IH1 IH2]] using rev_ind.
    - split; [by eexists|]. by intros [=].
    - simpl. rewrite foldl_snoc. split.
      + by apply configured_hosts_preserved.
      + by apply intercept_all_empty_preserved. }
  simpl in *. destruct Hc as [s Hs].
  set (w := foldl _ _ _) in *.
  assert (heap w !! intercepted_hosts (state w) = Some (OSet s)) as Hl.
  { unfold configured_hosts in Hs.
    destruct (heap w !! intercepted_hosts (state w)) as [[]|]; congruence. }
  destruct (get_intercepted_hosts_snapshot w s Hl)
    as (l & w' & Heq & _ & _ & Hl' & _).
  exists l, w', s. repeat split; try done.
  intros Hia. specialize (He Hia). congruence.
Qed.

End Extras.

(** * The properties on concrete runs *)

(** C6: [get_intercepted_hosts] after [setup_proxy("tok")] and
    [disable_proxy()] on the module as loaded: the proxy is inactive and
    the set returned holds the default host, so it is not empty. *)
Theorem get_intercepted_hosts_after_deactivate :
  ∃ l w,
    (activate (Some "tok") DEFAULT_PROXY_BASE_URL None false None ;;
     deactivate ;; get_intercepted_hosts) (initial_world (Native 0)) = (Ok l, w)
    ∧ active (state w) = false
    ∧ heap w !! l = Some (OSet {[ DEFAULT_API_HOST ]})
    ∧ DEFAULT_API_HOST ∈ ({[ DEFAULT_API_HOST ]} : gset string).
Proof.
  do 2 eexists. split; [vm_compute; reflexivity|].
  split; [reflexivity|]. split; [vm_compute; reflexivity|].
  by apply elem_of_singleton.
Qed.

(** C2: two intercepted requests whose raw query string loses parameters.
    With [params=b"a=&b=2"] the caller supplies [a] (with an empty value)
    and [b]; the rewritten request is sent to the forward URL with the
    parameters [b] and [url] only.  With [params="a=1&b=2"] given as
    [str] the caller supplies [a] and [b]; the rewritten request has [url]
    as its only parameter.  ([parse_qs] is taken at its reference instance,
    which agrees with CPython on these texts: they hold no escape.) *)
Theorem raw_query_parameters_dropped :
  let url := VStr "https://httpbin.org/get" in
  let send kwargs := patched_request session (VStr "GET") url kwargs w_hosts in
  (query_fields "a=&b=2" = [("a", ""); ("b", "2")]
   ∧ ∃ c w' lp d,
       send kwargs_raw = (Ok c, w')
       ∧ call_url c = VStr "https://fw.test/forward"
       ∧ call_kwargs c !! "params" = Some (VRef lp)
       ∧ heap w' !! lp = Some (ODict d)
       ∧ d = {[ "b" := VStr "2"; "url" := url ]}
       ∧ d !! "a" = None)
  ∧
  (query_fields "a=1&b=2" = [("a", "1"); ("b", "2")]
   ∧ ∃ c w' lp d,
       send kwargs_str = (Ok c, w')
       ∧ call_url c = VStr "https://fw.test/forward"
       ∧ call_kwargs c !! "params" = Some (VRef lp)
       ∧ heap w' !! lp = Some (ODict d)
       ∧ d = {[ "url" := url ]}
       ∧ d !! "a" = None ∧ d !! "b" = None).
Proof.
  simpl. split.
  - split; [reflexivity|]. do 4 eexists.
    split; [vm_compute; reflexivity|].
    split; [reflexivity|].
    split; [vm_compute; reflexivity|].
    split; [vm_compute; reflexivity|].
    split; vm_compute; reflexivity.
  - split; [reflexivity|]. do 4 eexists.
    split; [vm_compute; reflexivity|].
    split; [reflexivity|].
    split; [vm_compute; reflexivity|].
    split; [vm_compute; reflexivity|].
    repeat split; vm_compute; reflexivity.
Qed.

(** In [w_hosts], a request to the configured host is intercepted. *)
Lemma httpbin_intercepted :
  is_intercepted session (VStr "GET") (VStr "https://httpbin.org/get")
    kwargs_demo w_hosts.
Proof.
  apply (decision_true_redirects (list ascii) UrlLib.urlparse UrlLib.hostname
           UrlLib.repr UrlLib.decode UrlLib.parse_qs _ _ _ _ _
           (list_ascii_of_string "httpbin.org") (Native 0));
    vm_compute; reflexivity.
Defined.

Lemma hook_decision_witness :
  (is_intercepted session (VStr "GET") (VStr "https://httpbin.org/get")
     kwargs_demo w_hosts
   ↔ ∃ x, Some "httpbin.org" = Some x ∧ x ∈ ({[ "httpbin.org" ]} : gset string)).
Proof.
  refine (proj1 (proj2 (hook_decision (list ascii) UrlLib.urlparse UrlLib.hostname
    UrlLib.repr UrlLib.decode UrlLib.parse_qs session (VStr "GET")
    (VStr "https://httpbin.org/get") kwargs_demo w_hosts
    (list_ascii_of_string "httpbin.org") (Native 0) {[ "httpbin.org" ]}
    _ _ _)) _); vm_compute; reflexivity.
Defined.

(** The same request with its parameters given as a tuple of pairs. *)
Lemma httpbin_seq_intercepted :
  is_intercepted session (VStr "GET") (VStr "https://httpbin.org/get")
    kwargs_seq w_hosts.
Proof.
  apply (decision_true_redirects (list ascii) UrlLib.urlparse UrlLib.hostname
           UrlLib.repr UrlLib.decode UrlLib.parse_qs _ _ _ _ _
           (list_ascii_of_string "httpbin.org") (Native 0));
    vm_compute; reflexivity.
Defined.

Lemma intercepted_params_witness :
  (∃ lp,
    call_kwargs (the_call (patched_request session (VStr "GET")
       (VStr "https://httpbin.org/get") kwargs_demo w_hosts)) !! "params"
    = Some (VRef lp)
    ∧ heap (patched_request session (VStr "GET")
              (VStr "https://httpbin.org/get") kwargs_demo w_hosts).2 !! lp
      = Some (ODict (<["url" := VStr "https://httpbin.org/get"]>
                       {[ "foo" := VStr "bar" ]})))
  ∧
  (∃ lp,
    call_kwargs (the_call (patched_request session (VStr "GET")
       (VStr "https://httpbin.org/get") kwargs_seq w_hosts)) !! "params"
    = Some (VRef lp)
    ∧ heap (patched_request session (VStr "GET")
              (VStr "https://httpbin.org/get") kwargs_seq w_hosts).2 !! lp
      = Some (OList [VTuple [VStr "foo"; VStr "bar"];
                     VTuple [VStr "foo"; VStr "baz"];
                     VTuple [VStr "url"; VStr "https://httpbin.org/get"]])).
Proof.
  split.
  - destruct (intercepted_params (list ascii) UrlLib.urlparse UrlLib.hostname
      UrlLib.repr UrlLib.decode UrlLib.parse_qs session (VStr "GET")
      (VStr "https://httpbin.org/get") kwargs_demo w_hosts
      (the_call (patched_request session (VStr "GET")
         (VStr "https://httpbin.org/get") kwargs_demo w_hosts))
      (patched_request session (VStr "GET")
         (VStr "https://httpbin.org/get") kwargs_demo w_hosts).2
      (Mapping {[ "foo" := VStr "bar" ]}))
      as (lp & H1 & _ & H3 & _).
    + exact httpbin_intercepted.
    + vm_compute; reflexivity.
    + exists caller_params_loc. split; vm_compute; reflexivity.
    + exists lp. split; [exact H1 | exact H3].
  - destruct (intercepted_params (list ascii) UrlLib.urlparse UrlLib.hostname
      UrlLib.repr UrlLib.decode UrlLib.parse_qs session (VStr "GET")
      (VStr "https://httpbin.org/get") kwargs_seq w_hosts
      (the_call (patched_request session (VStr "GET")
         (VStr "https://httpbin.org/get") kwargs_seq w_hosts))
      (patched_request session (VStr "GET")
         (VStr "https://httpbin.org/get") kwargs_seq w_hosts).2
      (Sequence [VTuple [VStr "foo"; VStr "bar"];
                 VTuple [VStr "foo"; VStr "baz"]]))
      as (lp & H1 & _ & H3 & _).
    + exact httpbin_seq_intercepted.
    + vm_compute; reflexivity.
    + left. reflexivity.
    + exists lp. split; [exact H1 | exact H3].
Defined.

Lemma setup_proxy_empty_token_raises_witness :
  activate (Some "") "https://other.test" None true None w_hosts
  = (Raised ValueError, w_hosts).
Proof.
  apply (setup_proxy_empty_token_raises (list ascii) UrlLib.urlparse
           UrlLib.hostname (Some "") "https://other.test" None true None w_hosts).
  right. reflexivity.
Defined.

Lemma intercepted_url_and_headers_witness :
  ∃ c w' l',
    patched_request session (VStr "GET") (VStr "https://httpbin.org/get")
      kwargs_demo w_hosts = (Ok c, w')
    ∧ call_url c = VStr "https://fw.test/forward"
    ∧ call_kwargs c !! "headers" = Some (VRef l')
    ∧ heap w' !! l'
      = Some (ODict (<["X-Api-Token" := VStr "tok"]>
                       (<["Authorization" := VStr "Bearer tok"]>
                          {[ "X-Custom" := VStr "value123" ]})))
    ∧ heap w' !! caller_headers_loc = heap w_hosts !! caller_headers_loc.
Proof.
  destruct (intercepted_url_and_headers (list ascii) UrlLib.urlparse
    UrlLib.hostname UrlLib.repr UrlLib.decode UrlLib.parse_qs session (VStr "GET")
    (VStr "https://httpbin.org/get") kwargs_demo w_hosts "https://fw.test" "tok"
    {[ "X-Custom" := VStr "value123" ]})
    as (c & w' & l' & H1 & H2 & H3 & _ & H5 & _ & H7).
  - reflexivity.
  - reflexivity.
  - right. exists caller_headers_loc. split; vm_compute; reflexivity.
  - exact httpbin_intercepted.
  - exists c, w', l'. repeat split; try assumption.
    apply H7. vm_compute. eexists. reflexivity.
Defined.

Lemma activate_deactivate_roundtrip_witness :
  ∃ w', (activate (Some "tok") "https://fw.test/" None false None ;; deactivate)
          (initial_world (Native 7)) = (Ok tt, w')
    ∧ session_request w' = Some (Native 7)
    ∧ active (state w') = false
    ∧ original_request (state w') = None.
Proof.
  apply (activate_deactivate_roundtrip (list ascii) UrlLib.urlparse
           UrlLib.hostname "tok" "https://fw.test/" None false None
           (initial_world (Native 7))).
  - discriminate.
  - reflexivity.
Defined.

Lemma hook_malformed_url_witness :
  patched_request session (VStr "GET") (VStr "http://[::1") kwargs_demo w_hosts
  = (Ok (mkCall (Native 0) session (VStr "GET") (VStr "http://[::1") kwargs_demo),
     w_hosts).
Proof.
  apply (hook_malformed_url (list ascii) UrlLib.urlparse UrlLib.hostname
           UrlLib.repr UrlLib.decode UrlLib.parse_qs).
  - vm_compute; reflexivity.
  - reflexivity.
Defined.

Lemma setup_proxy_reactivate_witness :
  ∃ w', activate (Some "second") "https://new.example.com//" None true None w_hosts
        = (Ok tt, w')
    ∧ proxy_token (state w') = Some "second"
    ∧ proxy_base_url (state w') = Some "https://new.example.com"
    ∧ intercept_all (state w') = true
    ∧ forwarder_host (state w') = Some "new.example.com"
    ∧ active (state w') = true
    ∧ original_request (state w') = Some (Native 0)
    ∧ session_request w' = Some PatchedRequest.
Proof.
  destruct (setup_proxy_reactivate (list ascii) UrlLib.urlparse UrlLib.hostname
    "second" "https://new.example.com//" None true None w_hosts)
    as (w' & H1 & H2 & H3 & H4 & _ & H6 & H7 & H8 & H9 & _).
  - discriminate.
  - reflexivity.
  - exists w'. repeat split; assumption.
Defined.

Lemma token_invariant_preserved_witness :
  token_invariant
    (step (Activate (Some "second") "https://new.example.com" None true None)
       w_hosts).
Proof.
  apply (token_invariant_preserved (list ascii) UrlLib.urlparse UrlLib.hostname
           UrlLib.repr UrlLib.decode UrlLib.parse_qs).
  intros _. exists "tok". split; [reflexivity | discriminate].
Defined.

Lemma hook_loop_guard_no_hostname_witness :
  is_intercepted session (VStr "GET") (VStr "/relative/path") ∅ w_all.
Proof.
  refine (proj1 (hook_loop_guard_no_hostname (list ascii) UrlLib.urlparse
    UrlLib.hostname UrlLib.repr UrlLib.decode UrlLib.parse_qs session (VStr "GET")
    (VStr "/relative/path") ∅ w_all [] (Native 0) _ _ _) _ _).
  - vm_compute; reflexivity.
  - reflexivity.
  - reflexivity.
  - reflexivity.
  - vm_compute. eexists. reflexivity.
Defined.

(** ** Runs of the further properties *)

Lemma installed_initial n : installed (initial_world (Native n)).
Proof. split; [reflexivity | by exists n]. Defined.

Lemma installed_w_hosts : installed w_hosts.
Proof. split; [reflexivity | by exists 0]. Defined.

Lemma setup_proxy_host_set_witness :
  ∃ s, configured_hosts
         (activate (Some "tok") "https://fw.test" (Some ["httpbin.org"]) false
            (Some ["legacy.example.com"]) w_hosts).2 = Some s
    ∧ ("legacy.example.com" ∈ s ↔
         "legacy.example.com" ∈ ["httpbin.org"]
         ∨ "legacy.example.com" ∈ ["legacy.example.com"])
    ∧ s ≠ ∅.
Proof.
  destruct (setup_proxy_host_set (list ascii) UrlLib.urlparse UrlLib.hostname
              "tok" "https://fw.test" (Some ["httpbin.org"])
              (Some ["legacy.example.com"]) w_hosts)
    as (s & H1 & H2 & H3); [discriminate|].
  exists s. split; [exact H1|]. split; [apply H2 | exact H3].
Defined.

Lemma get_proxy_url_after_setup_witness :
  ∃ u n,
    (get_proxy_url (activate (Some "tok") "https://example.com//" None false None
                      (initial_world (Native 0))).2).1 = Ok u
    ∧ "https://example.com//" = u ++ string_of_list_ascii (replicate n "/"%char)
    ∧ last_char u ≠ Some "/"%char.
Proof.
  apply (get_proxy_url_after_setup (list ascii) UrlLib.urlparse UrlLib.hostname
           "tok" "https://example.com//" None false None
           (initial_world (Native 0))).
  discriminate.
Defined.

Lemma setup_proxy_base_url_stable_witness :
  (get_proxy_url
     (activate (Some "second") "https://example.com" None true None
        (activate (Some "tok") "https://example.com//" None false None
           (initial_world (Native 0))).2).2).1 = Ok "https://example.com".
Proof.
  apply (setup_proxy_base_url_stable (list ascii) UrlLib.urlparse UrlLib.hostname
           "tok" "second" "https://example.com//" None false None None true None
           (initial_world (Native 0))).
  - discriminate.
  - discriminate.
  - reflexivity.
Defined.

Lemma installed_preserved_witness :
  installed (step Deactivate w_hosts).
Proof.
  apply (installed_preserved (list ascii) UrlLib.urlparse UrlLib.hostname
           UrlLib.repr UrlLib.decode UrlLib.parse_qs).
  exact installed_w_hosts.
Defined.

Lemma hook_never_calls_itself_witness :
  callee (the_call (patched_request session (VStr "GET")
            (VStr "https://httpbin.org/get") kwargs_demo w_hosts))
  ≠ PatchedRequest.
Proof.
  refine (proj1 (hook_never_calls_itself (list ascii) UrlLib.urlparse
    UrlLib.hostname UrlLib.repr UrlLib.decode UrlLib.parse_qs session (VStr "GET")
    (VStr "https://httpbin.org/get") kwargs_demo w_hosts
    (the_call (patched_request session (VStr "GET")
       (VStr "https://httpbin.org/get") kwargs_demo w_hosts))
    (patched_request session (VStr "GET")
       (VStr "https://httpbin.org/get") kwargs_demo w_hosts).2 _ _)).
  - exact installed_w_hosts.
  - vm_compute; reflexivity.
Defined.

Lemma hook_without_original_raises_witness :
  ∃ e, (patched_request session (VStr "GET") (VStr "https://httpbin.org/get")
          kwargs_demo (deactivate w_hosts).2).1 = Raised e.
Proof.
  apply (hook_without_original_raises (list ascii) UrlLib.urlparse
           UrlLib.hostname UrlLib.repr UrlLib.decode UrlLib.parse_qs).
  reflexivity.
Defined.

Lemma double_activation_restores_original_witness :
  ∃ w', (activate (Some "first") DEFAULT_PROXY_BASE_URL None false None ;;
         activate (Some "second") "https://new.example.com" None false None ;;
         deactivate) (initial_world (Native 7)) = (Ok tt, w')
    ∧ session_request w' = Some (Native 7)
    ∧ active (state w') = false
    ∧ original_request (state w') = None.
Proof.
  apply (double_activation_restores_original (list ascii) UrlLib.urlparse
           UrlLib.hostname "first" DEFAULT_PROXY_BASE_URL None false None
           "second" "https://new.example.com" None false None
           (initial_world (Native 7))).
  - discriminate.
  - discriminate.
  - reflexivity.
Defined.

Lemma hook_writes_nothing_witness :
  heap (patched_request session (VStr "GET") (VStr "https://httpbin.org/get")
          kwargs_demo w_hosts).2 !! caller_headers_loc
  = Some (ODict {[ "X-Custom" := VStr "value123" ]}).
Proof.
  apply (hook_writes_nothing (list ascii) UrlLib.urlparse UrlLib.hostname
           UrlLib.repr UrlLib.decode UrlLib.parse_qs session (VStr "GET")
           (VStr "https://httpbin.org/get") kwargs_demo w_hosts).
  vm_compute; reflexivity.
Defined.

Lemma intercepted_other_options_untouched_witness :
  call_kwargs (the_call (patched_request session (VStr "GET")
     (VStr "https://httpbin.org/get") kwargs_demo w_hosts)) !! "timeout"
  = kwargs_demo !! "timeout".
Proof.
  refine (proj2 (proj2 (proj2 (intercepted_other_options_untouched (list ascii)
    UrlLib.urlparse UrlLib.hostname UrlLib.repr UrlLib.decode UrlLib.parse_qs
    session (VStr "GET") (VStr "https://httpbin.org/get") kwargs_demo w_hosts
    (the_call (patched_request session (VStr "GET")
       (VStr "https://httpbin.org/get") kwargs_demo w_hosts))
    (patched_request session (VStr "GET")
       (VStr "https://httpbin.org/get") kwargs_demo w_hosts).2 _ _)))
    "timeout" _ _).
  - exact httpbin_intercepted.
  - vm_compute; reflexivity.
  - discriminate.
  - discriminate.
Defined.

(** In [w_hosts], a request to the configured host with a [str] query
    string is intercepted. *)
Lemma httpbin_str_intercepted :
  is_intercepted session (VStr "GET") (VStr "https://httpbin.org/get")
    kwargs_str w_hosts.
Proof.
  apply (decision_true_redirects (list ascii) UrlLib.urlparse UrlLib.hostname
           UrlLib.repr UrlLib.decode UrlLib.parse_qs _ _ _ _ _
           (list_ascii_of_string "httpbin.org") (Native 0));
    vm_compute; reflexivity.
Defined.

Lemma intercepted_params_other_shape_witness :
  ∃ lp,
    call_kwargs (the_call (patched_request session (VStr "GET")
       (VStr "https://httpbin.org/get") kwargs_str w_hosts)) !! "params"
    = Some (VRef lp)
    ∧ heap (patched_request session (VStr "GET")
              (VStr "https://httpbin.org/get") kwargs_str w_hosts).2 !! lp
      = Some (ODict {[ "url" := VStr "https://httpbin.org/get" ]}).
Proof.
  apply (intercepted_params_other_shape (list ascii) UrlLib.urlparse
    UrlLib.hostname UrlLib.repr UrlLib.decode UrlLib.parse_qs session (VStr "GET")
    (VStr "https://httpbin.org/get") kwargs_str w_hosts
    (the_call (patched_request session (VStr "GET")
       (VStr "https://httpbin.org/get") kwargs_str w_hosts))
    (patched_request session (VStr "GET")
       (VStr "https://httpbin.org/get") kwargs_str w_hosts).2
    (VStr "a=1&b=2")).
  - exact httpbin_str_intercepted.
  - vm_compute; reflexivity.
  - vm_compute; reflexivity.
  - exact I.
Defined.

Lemma host_mode_no_hostname_passes_witness :
  patched_request session (VStr "GET") (VStr "httpbin.org/get") kwargs_demo w_hosts
  = (Ok (mkCall (Native 0) session (VStr "GET") (VStr "httpbin.org/get")
           kwargs_demo), w_hosts).
Proof.
  apply (host_mode_no_hostname_passes (list ascii) UrlLib.urlparse
           UrlLib.hostname UrlLib.repr UrlLib.decode UrlLib.parse_qs session
           (VStr "GET") (VStr "httpbin.org/get") kwargs_demo w_hosts []
           (Native 0) {[ "httpbin.org" ]}).
  - vm_compute; reflexivity.
  - reflexivity.
  - reflexivity.
  - vm_compute; reflexivity.
  - reflexivity.
Defined.

Lemma activation_host_mode_witness :
  is_intercepted session (VStr "GET")
    (VStr "https://api.telegram.org/bot123/getMe") ∅
    (activate (Some "t") DEFAULT_PROXY_BASE_URL None false None
       (initial_world (Native 0))).2
  ↔ ∃ x, Some "api.telegram.org" = Some x
         ∧ (x = DEFAULT_API_HOST ∨ x ∈ @nil string).
Proof.
  refine (proj1 (activation_host_mode (list ascii) UrlLib.urlparse
    UrlLib.hostname UrlLib.repr UrlLib.decode UrlLib.parse_qs
    "t" DEFAULT_PROXY_BASE_URL None None (initial_world (Native 0))
    session (VStr "GET") (VStr "https://api.telegram.org/bot123/getMe") ∅
    (list_ascii_of_string "api.telegram.org") _ _ _)).
  - discriminate.
  - exact (installed_initial 0).
  - vm_compute; reflexivity.
Defined.

Lemma activation_intercept_all_witness :
  is_passed_through session (VStr "GET") (VStr "https://fw.test/health") ∅
    (activate (Some "t") "https://fw.test" None true None
       (initial_world (Native 0))).2
  ↔ Some "fw.test" = Some "fw.test".
Proof.
  refine (proj2 (activation_intercept_all (list ascii) UrlLib.urlparse
    UrlLib.hostname UrlLib.repr UrlLib.decode UrlLib.parse_qs
    "t" "https://fw.test" None None (initial_world (Native 0))
    session (VStr "GET") (VStr "https://fw.test/health") ∅
    (list_ascii_of_string "fw.test") _ _ _)).
  - discriminate.
  - exact (installed_initial 0).
  - vm_compute; reflexivity.
Defined.

Lemma base_url_without_hostname_disables_guard_witness :
  is_intercepted session (VStr "GET") (VStr "https://fw.test/forward") ∅
    w_schemeless.
Proof.
  apply (base_url_without_hostname_disables_guard (list ascii) UrlLib.urlparse
    UrlLib.hostname UrlLib.repr UrlLib.decode UrlLib.parse_qs
    "tok" "fw.test" None None (initial_world (Native 0))
    session (VStr "GET") (VStr "https://fw.test/forward") ∅
    (list_ascii_of_string "fw.test") "fw.test").
  - discriminate.
  - exact (installed_initial 0).
  - vm_compute; reflexivity.
  - vm_compute; reflexivity.
  - vm_compute; reflexivity.
Defined.

(** After [setup_proxy("tok", "https://fw.test///")] a request to the
    default host is intercepted. *)
Lemma telegram_intercepted :
  is_intercepted session (VStr "POST")
    (VStr "https://api.telegram.org/bot123/sendMessage")
    {[ "headers" := VList [VTuple [VStr "Authorization"; VStr "Basic abc"]] ]}
    (activate (Some "tok") "https://fw.test///" None false None
       (initial_world (Native 0))).2.
Proof.
  apply (decision_true_redirects (list ascii) UrlLib.urlparse UrlLib.hostname
           UrlLib.repr UrlLib.decode UrlLib.parse_qs _ _ _ _ _
           (list_ascii_of_string "api.telegram.org") (Native 0));
    vm_compute; reflexivity.
Defined.

Lemma activation_forward_url_witness :
  ∃ u n,
    call_url (the_call (patched_request session (VStr "POST")
      (VStr "https://api.telegram.org/bot123/sendMessage")
      {[ "headers" := VList [VTuple [VStr "Authorization"; VStr "Basic abc"]] ]}
      (activate (Some "tok") "https://fw.test///" None false None
         (initial_world (Native 0))).2)) = VStr (u ++ "/forward")
    ∧ "https://fw.test///" = u ++ string_of_list_ascii (replicate n "/"%char)
    ∧ last_char u ≠ Some "/"%char.
Proof.
  apply (activation_forward_url (list ascii) UrlLib.urlparse UrlLib.hostname
    UrlLib.repr UrlLib.decode UrlLib.parse_qs "tok" "https://fw.test///" None
    false None (initial_world (Native 0)) session (VStr "POST")
    (VStr "https://api.telegram.org/bot123/sendMessage")
    {[ "headers" := VList [VTuple [VStr "Authorization"; VStr "Basic abc"]] ]}
    _
    (patched_request session (VStr "POST")
      (VStr "https://api.telegram.org/bot123/sendMessage")
      {[ "headers" := VList [VTuple [VStr "Authorization"; VStr "Basic abc"]] ]}
      (activate (Some "tok") "https://fw.test///" None false None
         (initial_world (Native 0))).2).2).
  - discriminate.
  - exact telegram_intercepted.
  - vm_compute; reflexivity.
Defined.

Lemma activation_auth_headers_witness :
  ∃ lh d,
    call_kwargs (the_call (patched_request session (VStr "POST")
      (VStr "https://api.telegram.org/bot123/sendMessage")
      {[ "headers" := VList [VTuple [VStr "Authorization"; VStr "Basic abc"]] ]}
      (activate (Some "tok") "https://fw.test///" None false None
         (initial_world (Native 0))).2)) !! "headers" = Some (VRef lh)
    ∧ heap (patched_request session (VStr "POST")
      (VStr "https://api.telegram.org/bot123/sendMessage")
      {[ "headers" := VList [VTuple [VStr "Authorization"; VStr "Basic abc"]] ]}
      (activate (Some "tok") "https://fw.test///" None false None
         (initial_world (Native 0))).2).2 !! lh = Some (ODict d)
    ∧ d !! "Authorization" = Some (VStr "Bearer tok")
    ∧ d !! "X-Api-Token" = Some (VStr "tok").
Proof.
  apply (activation_auth_headers (list ascii) UrlLib.urlparse UrlLib.hostname
    UrlLib.repr UrlLib.decode UrlLib.parse_qs "tok" "https://fw.test///" None
    false None (initial_world (Native 0)) session (VStr "POST")
    (VStr "https://api.telegram.org/bot123/sendMessage")
    {[ "headers" := VList [VTuple [VStr "Authorization"; VStr "Basic abc"]] ]}).
  - discriminate.
  - exact telegram_intercepted.
  - vm_compute; reflexivity.
Defined.

Lemma get_intercepted_hosts_returns_copies_witness :
  ∃ l1 l2 w',
    (l1 <- get_intercepted_hosts ;; l2 <- get_intercepted_hosts ;; ret (l1, l2))
      w_hosts = (Ok (l1, l2), w')
    ∧ l1 ≠ l2
    ∧ l1 ≠ intercepted_hosts (state w_hosts)
    ∧ heap w' !! l1 = Some (OSet {[ "httpbin.org" ]}).
Proof.
  destruct (get_intercepted_hosts_returns_copies w_hosts {[ "httpbin.org" ]})
    as (l1 & l2 & w' & H1 & H2 & H3 & _ & _ & _ & H7 & _).
  - vm_compute; reflexivity.
  - exists l1, l2, w'. repeat split; assumption.
Defined.

Lemma get_intercepted_hosts_reachable_witness :
  ∃ l w' s,
    get_intercepted_hosts
      (step Deactivate
         (step (Activate (Some "t") "https://fw.test" (Some ["a.org"]) true None)
            (initial_world (Native 0)))) = (Ok l, w')
    ∧ heap w' !! l = Some (OSet s)
    ∧ s = ∅.
Proof.
  destruct (get_intercepted_hosts_reachable (list ascii) UrlLib.urlparse
    UrlLib.hostname UrlLib.repr UrlLib.decode UrlLib.parse_qs
    [Activate (Some "t") "https://fw.test" (Some ["a.org"]) true None; Deactivate]
    (Native 0)) as (l & w' & s & H1 & H2 & H3).
  exists l, w', s. split; [exact H1|]. split; [exact H2|].
  apply H3. reflexivity.
Defined.

Lemma is_active_reports_installation_witness :
  (is_active (step Deactivate
                (step (Activate (Some "t") "https://fw.test" None false None)
                   (initial_world (Native 0))))).1 = Ok true
  ↔ session_request
      (step Deactivate
         (step (Activate (Some "t") "https://fw.test" None false None)
            (initial_world (Native 0)))) = Some PatchedRequest.
Proof.
  exact (is_active_reports_installation (list ascii) UrlLib.urlparse
           UrlLib.hostname UrlLib.repr UrlLib.decode UrlLib.parse_qs
           [Activate (Some "t") "https://fw.test" None false None; Deactivate] 0).
Defined.
